(** * pyts-tsparser: the JSON-to-AST deserializer and the printer

    A shallow embedding of [deserializer.ts] (the dispatch over the
    serialized node format of [types.ts]) and of [printer.ts], with the
    properties of the design document proved against it.

    The TypeScript compiler API ([ts.factory], [ts.isStatement], the
    printer), ESLint and the engine's built-in functions are collaborators
    that live outside the repository: they are the fields of the class
    [Platform], and the theorems hold for every instance of it. *)

From Stdlib Require Import List String Ascii Bool Arith NArith ZArith.
From Stdlib Require Import DecimalString DecimalPos.
From Stdlib Require Import PrimFloat SpecFloat FloatOps.
Import ListNotations.

Local Open Scope string_scope.
Local Open Scope list_scope.

Set Warnings "-register-all,-inexact-float".

(** ** Serialized nodes ([types.ts]) *)

(** A JavaScript [number] is an IEEE 754 double. *)
Definition number : Set := float.

(** [value: null | boolean | string] of a [SerializedLiteral]. *)
Inductive LiteralValue : Set :=
| LNull
| LBool (b : bool)
| LString (s : string).

(** [value: number | string] of a [SerializedNumber]. *)
Inductive NumberValue : Set :=
| NumNative (x : number)
| NumString (s : string).

(** The union [SerializedNode], and what reaches [deserialize] through the
    unchecked cast of the parsed input besides: [SBare type] is an object
    with that [type] and no other property (no [value], no [name], no
    [args]), whatever the string is. *)
Inductive SerializedNode : Set :=
| SLiteral (value : LiteralValue)
| SNumber (value : NumberValue)
| SFactory (name : string) (args : list SerializedNode)
| SUndefined
| SBare (type : string).

(** The induction principle that reaches the arguments of a factory call. *)
Section SerializedNode_ind'.
Variable P : SerializedNode -> Prop.
Hypothesis HLiteral : forall value, P (SLiteral value).
Hypothesis HNumber : forall value, P (SNumber value).
Hypothesis HFactory :
  forall name args, Forall P args -> P (SFactory name args).
Hypothesis HUndefined : P SUndefined.
Hypothesis HBare : forall type, P (SBare type).

Fixpoint SerializedNode_ind' (node : SerializedNode) : P node :=
  match node with
  | SLiteral value => HLiteral value
  | SNumber value => HNumber value
  | SFactory name args =>
      HFactory name args
        ((fix all (l : list SerializedNode) : Forall P l :=
            match l with
            | [] => Forall_nil P
            | a :: l' => Forall_cons a (SerializedNode_ind' a) (all l')
            end) args)
  | SUndefined => HUndefined
  | SBare type => HBare type
  end.
End SerializedNode_ind'.

(** [node.type]. *)
Definition node_type (node : SerializedNode) : string :=
  match node with
  | SLiteral _ => "literal"
  | SNumber _ => "number"
  | SFactory _ _ => "factory"
  | SUndefined => "undefined"
  | SBare type => type
  end.

Definition isLiteral (node : SerializedNode) : bool :=
  (node_type node =? "literal")%string.

Definition isUndefined (node : SerializedNode) : bool :=
  (node_type node =? "undefined")%string.

Definition isNumber (node : SerializedNode) : bool :=
  (node_type node =? "number")%string.

Definition isFactory (node : SerializedNode) : bool :=
  (node_type node =? "factory")%string.

(** ** Computations that log calls and may throw *)

(** What a computation can throw, by origin. *)
Inductive Exn (LibExn : Type) : Type :=
| Error (message : string)
    (* [throw new Error(message)] written in this repository *)
| TypeError
    (* raised by the engine while it evaluates an expression of this
       repository: a property read on [null] or [undefined], a call of
       something that is not a function *)
| Raised (e : LibExn).
    (* thrown inside a library or built-in function *)

Arguments Error {LibExn} message.
Arguments TypeError {LibExn}.
Arguments Raised {LibExn} e.

Module Eff.
(** A computation: the calls made so far, in order, and how it ended. *)
Definition t (Ev X A : Type) : Type := (list Ev * (Exn X + A))%type.

Definition ret {Ev X A} (a : A) : t Ev X A := ([], inr a).

Definition throw {Ev X A} (e : Exn X) : t Ev X A := ([], inl e).

Definition bind {Ev X A B} (m : t Ev X A) (f : A -> t Ev X B) : t Ev X B :=
  match m with
  | (log, inl e) => (log, inl e)
  | (log, inr a) => let (log', r) := f a in (log ++ log', r)
  end.

(** A call of a collaborator: it returns or throws. *)
Definition lift {Ev X A} (r : X + A) : t Ev X A :=
  ([], match r with inl e => inl (Raised e) | inr a => inr a end).

(** The same, entered in the log. *)
Definition call {Ev X A} (ev : Ev) (r : X + A) : t Ev X A :=
  ([ev], match r with inl e => inl (Raised e) | inr a => inr a end).

Definition log {Ev X A} (m : t Ev X A) : list Ev := fst m.
Definition outcome {Ev X A} (m : t Ev X A) : Exn X + A := snd m.

(** [Array.prototype.map] with a callback that may throw: left to right,
    stopping at the first exception. *)
Definition mapM {Ev X A B} (f : A -> t Ev X B) : list A -> t Ev X (list B) :=
  fix go (l : list A) : t Ev X (list B) :=
    match l with
    | [] => ret []
    | a :: l' => bind (f a) (fun b => bind (go l') (fun bs => ret (b :: bs)))
    end.
End Eff.

Declare Scope eff_scope.
Delimit Scope eff_scope with eff.
Notation "x <- m ;; k" := (Eff.bind m (fun x => k))
  (at level 61, m at next level, right associativity) : eff_scope.
Local Open Scope eff_scope.

(** ** Runtime values *)

Section Values.
(** Heap objects other than arrays; every object the deserializer builds
    through the operation table is a [ts.Node]. *)
Variable Node : Type.

(** [DeserializedValues]. *)
Inductive Value : Type :=
| VString (s : string)
| VNumber (x : number)
| VBool (b : bool)
| VNode (n : Node)
| VNull
| VUndefined
| VArray (elements : list Value).
End Values.

Arguments VString {Node} s.
Arguments VNumber {Node} x.
Arguments VBool {Node} b.
Arguments VNode {Node} n.
Arguments VNull {Node}.
Arguments VUndefined {Node}.
Arguments VArray {Node} elements.

(** ** Objects used as string-keyed tables *)

(** What a property of a table can hold. *)
Inductive Property (A : Type) : Type :=
| Function (f : A)
| NotCallable.
    (* an object that is not a function *)

Arguments Function {A} f.
Arguments NotCallable {A}.

(** The own properties of an object literal, in source order. *)
Fixpoint own {A} (table : list (string * A)) (key : string) : option A :=
  match table with
  | [] => None
  | (k, v) :: table' => if (k =? key)%string then Some v else own table' key
  end.

(** The property names every object literal inherits from
    [Object.prototype]; [__proto__] holds [Object.prototype] itself, the
    others are built-in functions. *)
Definition object_prototype_keys : list string :=
  [ "constructor"; "__defineGetter__"; "__defineSetter__"; "hasOwnProperty";
    "__lookupGetter__"; "__lookupSetter__"; "isPrototypeOf";
    "propertyIsEnumerable"; "toString"; "valueOf"; "__proto__";
    "toLocaleString" ].

(** The keys of [factoryMap], in source order; the entry under key [k] is
    [ts.factory.k]. *)
Definition factory_names : list string :=
  [ "createToken";
    "createIdentifier"; "createPrivateIdentifier"; "createQualifiedName";
    "createStringLiteral"; "createNumericLiteral"; "createBigIntLiteral";
    "createRegularExpressionLiteral"; "createNoSubstitutionTemplateLiteral";
    "createTrue"; "createFalse"; "createNull";
    "createArrayLiteralExpression"; "createObjectLiteralExpression";
    "createPropertyAccessExpression"; "createElementAccessExpression";
    "createCallExpression"; "createNewExpression";
    "createTaggedTemplateExpression"; "createTypeAssertion";
    "createParenthesizedExpression"; "createFunctionExpression";
    "createArrowFunction"; "createDeleteExpression"; "createTypeOfExpression";
    "createVoidExpression"; "createAwaitExpression";
    "createPrefixUnaryExpression"; "createPostfixUnaryExpression";
    "createBinaryExpression"; "createConditionalExpression";
    "createTemplateExpression"; "createYieldExpression"; "createSpreadElement";
    "createClassExpression"; "createOmittedExpression"; "createAsExpression";
    "createNonNullExpression"; "createSatisfiesExpression";
    "createBlock"; "createEmptyStatement"; "createVariableStatement";
    "createExpressionStatement"; "createIfStatement"; "createDoStatement";
    "createWhileStatement"; "createForStatement"; "createForInStatement";
    "createForOfStatement"; "createContinueStatement"; "createBreakStatement";
    "createReturnStatement"; "createWithStatement"; "createSwitchStatement";
    "createLabeledStatement"; "createThrowStatement"; "createTryStatement";
    "createDebuggerStatement";
    "createVariableDeclaration"; "createVariableDeclarationList";
    "createFunctionDeclaration"; "createClassDeclaration";
    "createInterfaceDeclaration"; "createTypeAliasDeclaration";
    "createEnumDeclaration"; "createModuleDeclaration";
    "createImportDeclaration"; "createImportClause"; "createNamespaceImport";
    "createNamedImports"; "createImportSpecifier"; "createExportAssignment";
    "createExportDeclaration"; "createNamedExports"; "createExportSpecifier";
    "createTypeReferenceNode"; "createTypeQueryNode"; "createArrayTypeNode";
    "createTupleTypeNode"; "createUnionTypeNode"; "createIntersectionTypeNode";
    "createLiteralTypeNode"; "createFunctionTypeNode"; "createTypeLiteralNode";
    "createTypeOperatorNode"; "createIndexedAccessTypeNode";
    "createPropertySignature";
    "createPropertyDeclaration"; "createMethodDeclaration";
    "createConstructorDeclaration"; "createGetAccessorDeclaration";
    "createSetAccessorDeclaration"; "createIndexSignature";
    "createClassStaticBlockDeclaration";
    "createPropertyAssignment"; "createShorthandPropertyAssignment";
    "createSpreadAssignment";
    "createObjectBindingPattern"; "createArrayBindingPattern";
    "createBindingElement";
    "createParameterDeclaration"; "createTypeParameterDeclaration";
    "createDecorator"; "createHeritageClause";
    "createExpressionWithTypeArguments"; "createCatchClause";
    "createCaseClause"; "createDefaultClause"; "createCaseBlock";
    "createTemplateHead"; "createTemplateMiddle"; "createTemplateTail";
    "createTemplateSpan";
    "createKeywordTypeNode" ].

(** A number inside a template literal, for the integers that occur there
    (syntax kinds, line and column numbers). *)
Definition show_N (n : N) : string := NilZero.string_of_uint (N.to_uint n).

(** ** The collaborators *)

(** One entry of [LintResult.messages]; a property that is absent reads as
    [undefined]. *)
Record LintMessage : Set :=
  { line : option N; column : option N; message : string }.

(** What the printer reads of an ESLint [LintResult]. *)
Record LintResult : Set :=
  { output : option string; messages : list LintMessage }.

Inductive QuoteStyle : Set := single | double.
Inductive EolLast : Set := never | always.

(** The rules [createLinter] sets on top of the presets; the fourth,
    [@typescript-eslint/prefer-as-const], takes no option. *)
Record Rules : Set :=
  { indent : number; quotes : QuoteStyle; eol_last : EolLast }.

Class Platform : Type :=
  { (** heap objects other than arrays, and what library code throws *)
    Node : Type;
    LibExn : Type;
    (** the engine's global [parseFloat] *)
    parseFloat : string -> number;
    (** the built-in function [Object.prototype[name]] called as a plain
        function, that is with [this] undefined *)
    object_prototype_call :
      string -> list (Value Node) -> LibExn + Value Node;
    (** [ts.factory[name](...args)], for the names of the table *)
    ts_factory : string -> list (Value Node) -> LibExn + Node;
    (** [ts.isStatement] and [ts.isExpression], on whatever they are handed *)
    ts_isStatement : Value Node -> LibExn + bool;
    ts_isExpression : Value Node -> LibExn + bool;
    (** the [kind] property of an object, [None] when it has none *)
    kind : Node -> option N;
    (** [printNode(EmitHint.Unspecified, node, sourceFile)],
        [printFile(createSourceFile(statements, EndOfFileToken, None))] and
        [printList(ListFormat.MultiLine, createNodeArray(nodes), sourceFile)]
        of a printer created with the given [removeComments] *)
    ts_printNode : bool -> Node -> LibExn + string;
    ts_printFile : bool -> list Node -> LibExn + string;
    ts_printList : bool -> list Node -> LibExn + string;
    (** [lintText(text, { filePath: 'output.ts' })] of an ESLint instance
        that fixes, configured with the given rules *)
    eslint_lintText : Rules -> string -> LibExn + list LintResult }.

(** ** The deserializer ([deserializer.ts]) *)

Section Deserializer.
Context {platform : Platform}.

(** One evaluation of [factory(...args)]. *)
Record Call : Type := { callee : string; arguments : list (Value Node) }.

Definition FactoryFunction : Type := list (Value Node) -> LibExn + Value Node.

(** [ts.factory[name] as FactoryFunction]. *)
Definition operation (name : string) : FactoryFunction :=
  fun args => match ts_factory name args with
              | inl e => inl e
              | inr n => inr (VNode n)
              end.

Definition factoryMap : list (string * FactoryFunction) :=
  map (fun name => (name, operation name)) factory_names.

(** [Object.prototype], as seen through a property read. *)
Definition object_prototype (key : string)
  : option (Property FactoryFunction) :=
  if existsb (String.eqb key) object_prototype_keys then
    if (key =? "__proto__")%string then Some NotCallable
    else Some (Function (object_prototype_call key))
  else None.

(** [factoryMap[key]]: an own property, else one found on the prototype
    chain, else [undefined] (here [None]). Every property found is
    truthy. *)
Definition get_factoryMap (key : string)
  : option (Property FactoryFunction) :=
  match own factoryMap key with
  | Some f => Some (Function f)
  | None => object_prototype key
  end.

(** [factory(...args)]. *)
Definition apply (name : string) (factory : Property FactoryFunction)
    (args : list (Value Node)) : Eff.t Call LibExn (Value Node) :=
  match factory with
  | Function f => Eff.call {| callee := name; arguments := args |} (f args)
  | NotCallable => Eff.throw TypeError
  end.

Definition literal (value : LiteralValue) : Value Node :=
  match value with
  | LNull => VNull
  | LBool b => VBool b
  | LString s => VString s
  end.

Definition deserializeFactory
    (deserialize : SerializedNode -> Eff.t Call LibExn (Value Node))
    (name : string) (args : list SerializedNode)
  : Eff.t Call LibExn (Value Node) :=
  if (name =? "__array__")%string then
    elements <- Eff.mapM deserialize args ;;
    Eff.ret (VArray elements)
  else
    match get_factoryMap name with
    | None => Eff.throw (Error ("Unknown factory method: " ++ name))
    | Some factory =>
        args <- Eff.mapM deserialize args ;;
        apply name factory args
    end.

Fixpoint deserialize (node : SerializedNode)
  : Eff.t Call LibExn (Value Node) :=
  match node with
  | SLiteral value => Eff.ret (literal value)
  | SUndefined => Eff.ret VUndefined
  | SNumber value =>
      Eff.ret (VNumber match value with
                       | NumString s => parseFloat s
                       | NumNative x => x
                       end)
  | SFactory name args => deserializeFactory deserialize name args
  | SBare type =>
      (* the guards in the order of the source, on an object whose [value],
         [name] and [args] read as [undefined] *)
      let node := SBare type in
      if isLiteral node then Eff.ret VUndefined (* [node.value] *)
      else if isUndefined node then Eff.ret VUndefined
      else if isNumber node then
        (* [value] is not a string: it is returned as it is *)
        Eff.ret VUndefined
      else if isFactory node then
        (* [node.name] is not the sentinel; [factoryMap[undefined]] reads
           the key "undefined"; were it found, [node.args.map] would be a
           property read on [undefined] *)
        match get_factoryMap "undefined" with
        | None => Eff.throw (Error "Unknown factory method: undefined")
        | Some _ => Eff.throw TypeError
        end
      else Eff.throw (Error ("Unknown node type: " ++ type))
  end.

(** What [deserialize] throws: nothing but the errors of an unknown name
    and of an unknown type, the engine's refusal to call a property that
    is not a function, and what a callee throws. *)
Definition thrown_by_deserialize (e : Exn LibExn) : Prop :=
  e = TypeError
  \/ (exists x, e = Raised x)
  \/ (exists name, e = Error ("Unknown factory method: " ++ name))
  \/ (exists type, e = Error ("Unknown node type: " ++ type)).

(** [(result as ts.Node).kind] inside a template literal. *)
Definition kind_of (result : Value Node) : Eff.t Call LibExn string :=
  match result with
  | VNull | VUndefined => Eff.throw TypeError
  | VNode n =>
      Eff.ret match kind n with Some k => show_N k | None => "undefined" end
  | VString _ | VNumber _ | VBool _ | VArray _ => Eff.ret "undefined"
  end.

Definition deserializeStatement (node : SerializedNode)
  : Eff.t Call LibExn (Value Node) :=
  result <- deserialize node ;;
  is_statement <- Eff.lift (ts_isStatement result) ;;
  if negb is_statement then
    k <- kind_of result ;;
    Eff.throw (Error ("Expected a statement, got: " ++ k))
  else Eff.ret result.

Definition deserializeStatements (nodes : list SerializedNode)
  : Eff.t Call LibExn (list (Value Node)) :=
  Eff.mapM deserializeStatement nodes.

Definition deserializeExpression (node : SerializedNode)
  : Eff.t Call LibExn (Value Node) :=
  result <- deserialize node ;;
  is_expression <- Eff.lift (ts_isExpression result) ;;
  if negb is_expression then
    k <- kind_of result ;;
    Eff.throw (Error ("Expected an expression, got: " ++ k))
  else Eff.ret result.

Definition deserializeDeclaration (node : SerializedNode)
  : Eff.t Call LibExn (Value Node) :=
  result <- deserialize node ;;
  Eff.ret result.
End Deserializer.

(** ** The printer ([printer.ts]) *)

(** [s] stands somewhere inside [t]. *)
Definition occurs_in (s t : string) : Prop :=
  exists before after, t = (before ++ s ++ after)%string.

(** [s] is what a template literal makes of the number [p]: its decimal
    digits, with no sign and no leading zero, and [undefined] when the
    property is absent. Said through the standard library's reading of
    decimal strings, not through the function that writes them here. *)
Definition reads_as (p : option N) (s : string) : Prop :=
  match p with
  | Some n => NilZero.uint_of_string s = Some (N.to_uint n)
  | None => s = "undefined"
  end.

Record PrinterOptions : Set :=
  { singleQuote : option bool;
    trailingNewline : option bool;
    indentWidth : option number;
    removeComments : option bool }.

(** [options = {}]. *)
Definition no_options : PrinterOptions :=
  {| singleQuote := None; trailingNewline := None;
     indentWidth := None; removeComments := None |}.

(** The line feed of ["\n"]. *)
Definition LF : string := String (ascii_of_nat 10) "".

Section Printer.
Context {platform : Platform}.

(** One evaluation of [linter.lintText(text, ...)]. *)
Record Lint : Set := { rules : Rules; linted : string }.

Definition createLinter (options : PrinterOptions) : Rules :=
  {| indent := match indentWidth options with
               | Some width => width
               | None => 2%float
               end;
     quotes := match singleQuote options with
               | Some true => single
               | _ => double
               end;
     eol_last := match trailingNewline options with
                 | Some false => never
                 | _ => always
                 end |}.

Definition show_position (p : option N) : string :=
  match p with Some n => show_N n | None => "undefined" end.

Definition show_message (m : LintMessage) : string :=
  show_position (line m) ++ ":" ++ show_position (column m)
    ++ " " ++ message m.

(** The message of the error [lintText] throws. *)
Definition unable_to_lint (text messages : string) : string :=
  "unable to lint printed node:" ++ LF ++ LF ++ text
    ++ LF ++ LF ++ "Errors:" ++ LF ++ messages.

Definition lintText (text : string) (options : PrinterOptions)
  : Eff.t Lint LibExn string :=
  let linter := createLinter options in
  result <- Eff.call {| rules := linter; linted := text |}
                     (eslint_lintText linter text) ;;
  let first := hd_error result in
  match match first with Some r => output r | None => None end with
  | Some fixed => Eff.ret fixed
  | None =>
      let remaining :=
        match first with Some r => messages r | None => [] end in
      if (List.length remaining =? 0)%nat then Eff.ret text
      else
        let messages := String.concat LF (map show_message remaining) in
        Eff.throw (Error (unable_to_lint text messages))
  end.

(** The [removeComments] a printer is created with. *)
Definition createPrinter (options : PrinterOptions) : bool :=
  match removeComments options with Some b => b | None => false end.

(** [!text]. *)
Definition is_empty (text : string) : bool :=
  match text with "" => true | _ => false end.

Definition printNode (node : Node) (options : PrinterOptions)
  : Eff.t Lint LibExn string :=
  let printer := createPrinter options in
  text <- Eff.lift (ts_printNode printer node) ;;
  if is_empty text then Eff.ret "" else lintText text options.

Definition printNodes (nodes : list Node) (options : PrinterOptions)
  : Eff.t Lint LibExn string :=
  let printer := createPrinter options in
  parts <- Eff.mapM (fun node => Eff.lift (ts_printNode printer node))
                    nodes ;;
  let text := String.concat LF parts in
  if is_empty text then Eff.ret "" else lintText text options.

Definition printFile (statements : list Node) (options : PrinterOptions)
  : Eff.t Lint LibExn string :=
  let printer := createPrinter options in
  text <- Eff.lift (ts_printFile printer statements) ;;
  if is_empty text then Eff.ret "" else lintText text options.

Definition printNodeList (nodes : list Node) (options : PrinterOptions)
  : Eff.t Lint LibExn string :=
  let printer := createPrinter options in
  text <- Eff.lift (ts_printList printer nodes) ;;
  lintText text options.
End Printer.

(** ** What a node makes [deserialize] do *)

(** The names a node has invoked once it is deserialized: those of its
    factory calls, arguments first and from left to right; the array
    sentinel invokes nothing of its own. *)
Fixpoint invoked (node : SerializedNode) : list string :=
  match node with
  | SFactory name args =>
      flat_map invoked args
        ++ (if (name =? "__array__")%string then [] else [name])
  | _ => []
  end.

(** The node and the nodes inside it have the shape their type announces,
    and every factory call names the array sentinel or a key of
    [factoryMap]. *)
Fixpoint well_formed (node : SerializedNode) : bool :=
  match node with
  | SFactory name args =>
      ((name =? "__array__")%string
       || existsb (String.eqb name) factory_names)
      && forallb well_formed args
  | SBare _ => false
  | SLiteral _ | SNumber _ | SUndefined => true
  end.

(** [x] is [node] or lies somewhere among its arguments. *)
Inductive subnode (x : SerializedNode) : SerializedNode -> Prop :=
| subnode_here : subnode x x
| subnode_arg name args a :
    In a args -> subnode x a -> subnode x (SFactory name args).

(** A log that is empty, or holds one call on a text that is not empty. *)
Definition lints_once_nonempty (options : PrinterOptions) (calls : list Lint)
  : Prop :=
  List.length calls <= 1
  /\ Forall (fun c => linted c <> "" /\ rules c = createLinter options) calls.

(** ** The command-line entry point *)

(** What [JSON.parse] returns. *)
Inductive Json : Type :=
| JNull
| JBool (b : bool)
| JNumber (x : number)
| JString (s : string)
| JArray (elements : list Json)
| JObject (members : list (string * Json)).

(** What a collaborator of the command line throws: an instance of
    [Error], or something else. *)
Inductive Thrown : Set :=
| ErrorObject (message : string)
| NotAnError.

(** [CliOptions]. *)
Record CliOptions : Set :=
  { cli_output : option string;
    cli_help : option bool;
    cli_version : option bool }.

(** What the process does to the outside, in order. [ReadStdin] is the
    reading of [process.stdin] (its listeners are attached); [Mkdir] and
    [WriteFile] are the calls of [mkdirSync] and [writeFileSync], entered
    when they are made; [Generate] is the call of [toTypeScriptFile]. *)
Inductive Effect : Type :=
| ReadStdin
| Generate (nodes : list Json)
| Mkdir (dir : string)
| WriteFile (path content : string)
| Log (text : string)
| ErrorLog (text : string)
| Exit (code : nat).

Class Host : Type :=
  { (** [parseArgs] of [node:util] on the arguments of the process, with
        the options of [parseCliArgs] *)
    parseArgs : Thrown + CliOptions;
    (** [process.stdin.isTTY], and what the stream delivers: the decoded
        data at its end, or the argument of its [error] event *)
    stdin_isTTY : bool;
    stdin_data : Thrown + string;
    (** [String.prototype.trim] *)
    trim : string -> string;
    (** [JSON.parse], [None] when it throws *)
    JSON_parse : string -> option Json;
    (** [toTypeScriptFile] of [index.ts] *)
    toTypeScriptFile : list Json -> Thrown + string;
    (** [resolve(process.cwd(), path)] and [dirname] of [node:path] *)
    resolve : string -> string;
    dirname : string -> string;
    (** [mkdirSync(dir, { recursive: true })] and
        [writeFileSync(path, content, 'utf-8')]: [None] when they return *)
    mkdirSync : string -> option Thrown;
    writeFileSync : string -> string -> option Thrown }.

Definition VERSION : string := "1.0.0".

Definition double_quote : string := String (ascii_of_nat 34) "".

(** The template literal of [printHelp]. *)
Definition help_text : string :=
  String.concat LF
    [ "";
      "tsparser - TypeScript AST to code generator";
      "";
      "Usage:";
      "  tsparser -o <output-file>";
      "";
      "Options:";
      "  -o, --output <file>   Output file path (required)";
      "  -h, --help            Show this help message";
      "  --version             Show version number";
      "";
      "Examples:";
      "  # Generate TypeScript from JSON via stdin";
      "  echo '[{" ++ double_quote ++ "type" ++ double_quote ++ ":"
        ++ double_quote ++ "factory" ++ double_quote ++ ","
        ++ double_quote ++ "name" ++ double_quote ++ ":"
        ++ double_quote ++ "createIdentifier" ++ double_quote
        ++ ",...}]' | tsparser -o out.ts";
      "";
      "  # Pipe from Python";
      "  python generate_ast.py | tsparser -o generated/types.ts";
      "";
      "Input Format:";
      "  JSON array of serialized AST nodes via stdin.";
      "  Each node should follow the SerializedNode format from pyastts.";
      "" ]%string.

Section Cli.
Context {host : Host}.

Definition printHelp : list Effect := [Log help_text].

(** [readStdin]: on a terminal it throws before it touches the stream;
    otherwise it reads the stream, and resolves to the data or rejects with
    the stream's error. *)
Definition readStdin : list Effect * (Thrown + string) :=
  if stdin_isTTY then
    ([],
     inl (ErrorObject ("No input provided. Pipe JSON data via stdin." ++ LF
                       ++ "Example: echo '[...]' | tsparser -o output.ts")))
  else ([ReadStdin], stdin_data).

(** [ensureDir]: the call it makes, and what that call throws. *)
Definition ensureDir (filePath : string) : list Effect * option Thrown :=
  let dir := dirname filePath in
  if negb (is_empty dir) && negb (dir =? ".")%string
  then ([Mkdir dir], mkdirSync dir)
  else ([], None).

(** The [catch] of [main]. *)
Definition report (error : Thrown) : list Effect :=
  [ match error with
    | ErrorObject message => ErrorLog ("Error: " ++ message)
    | NotAnError => ErrorLog "An unknown error occurred."
    end;
    Exit 1 ].

(** [if (flag)] on an optional boolean. *)
Definition set (flag : option bool) : bool :=
  match flag with Some true => true | _ => false end.

Definition main : list Effect :=
  match parseArgs with
  | inl error => report error
  | inr options =>
      if set (cli_version options) then [Log VERSION; Exit 0]
      else if set (cli_help options) then printHelp ++ [Exit 0]
      else
        match cli_output options with
        | None | Some "" =>
            [ ErrorLog "Error: Output file is required. Use -o <file>";
              ErrorLog ("Run " ++ double_quote ++ "tsparser --help"
                        ++ double_quote ++ " for usage information.");
              Exit 1 ]
        | Some output =>
            let (read, input) := readStdin in
            read ++
            match input with
            | inl error => report error
            | inr input =>
                if is_empty (trim input) then
                  [ErrorLog "Error: No input received from stdin."; Exit 1]
                else
                  match JSON_parse input with
                  | None => [ErrorLog "Error: Invalid JSON input."; Exit 1]
                  | Some parsed =>
                      let nodes :=
                        match parsed with
                        | JArray elements => elements
                        | _ => [parsed]
                        end in
                      Generate nodes ::
                      match toTypeScriptFile nodes with
                      | inl error => report error
                      | inr code =>
                          let outputPath := resolve output in
                          let (made, failed) := ensureDir outputPath in
                          made ++
                          match failed with
                          | Some error => report error
                          | None =>
                              WriteFile outputPath code ::
                              match writeFileSync outputPath code with
                              | Some error => report error
                              | None => [Log ("Generated: " ++ outputPath)]
                              end
                          end
                      end
                  end
            end
        end
  end.

(** The status the process ends with: that of [process.exit], or 0 when
    [main] runs to its end. *)
Definition exit_status (run : list Effect) : nat :=
  match last run (Exit 0) with Exit code => code | _ => 0 end.
End Cli.

(** ** A reference platform

    An executable stand-in for the collaborators, used to run the model on
    concrete inputs. Nothing below is taken from the repository. *)

Module Reference.

(** *** [parseFloat]

    The engine's global [parseFloat] is a built-in: the repository only
    calls it. Strings are sequences of bytes here, so a character outside
    ASCII is its UTF-8 encoding. *)

Definition is_digit (c : ascii) : bool :=
  (48 <=? nat_of_ascii c)%nat && (nat_of_ascii c <=? 57)%nat.

Definition digit (c : ascii) : Z := Z.of_nat (nat_of_ascii c - 48).

(** A maximal run of decimal digits read onto [acc]: the number read, how
    many digits it had, and what follows. *)
Fixpoint read_digits (s : string) (acc : Z) (count : Z) : Z * Z * string :=
  match s with
  | String c s' =>
      if is_digit c then read_digits s' (10 * acc + digit c) (count + 1)
      else (acc, count, s)
  | "" => (acc, count, s)
  end.

Definition byte_is (c : ascii) (n : nat) : bool := (nat_of_ascii c =? n)%nat.

(** TAB, LF, VT, FF, CR and the space. *)
Definition is_ascii_space (c : ascii) : bool :=
  let n := nat_of_ascii c in
  ((9 <=? n)%nat && (n <=? 13)%nat) || (n =? 32)%nat.

(** The white space and line terminators beyond ASCII, as UTF-8: U+1680,
    U+2000 to U+200A, U+2028, U+2029, U+202F, U+205F, U+3000, U+FEFF. *)
Definition is_space3 (a b c : ascii) : bool :=
  let a := nat_of_ascii a in
  let b := nat_of_ascii b in
  let c := nat_of_ascii c in
  ((a =? 225) && (b =? 154) && (c =? 128))%nat
  || ((a =? 226) && (b =? 128)
      && (((128 <=? c) && (c <=? 138)) || (c =? 168) || (c =? 169)
          || (c =? 175)))%nat
  || ((a =? 226) && (b =? 129) && (c =? 159))%nat
  || ((a =? 227) && (b =? 128) && (c =? 128))%nat
  || ((a =? 239) && (b =? 187) && (c =? 191))%nat.

Fixpoint trim_start (s : string) : string :=
  match s with
  | String a s1 =>
      if is_ascii_space a then trim_start s1
      else
        match s1 with
        | String b s2 =>
            (* U+00A0 *)
            if byte_is a 194 && byte_is b 160 then trim_start s2
            else
              match s2 with
              | String c s3 => if is_space3 a b c then trim_start s3 else s
              | "" => s
              end
        | "" => s
        end
  | "" => s
  end.

(** The double nearest to [m * 10 ^ e], ties to even, for [0 <= m]. When
    [e] is negative the quotient is taken with 64 bits to spare and a
    sticky last bit, which is enough for the rounding to be decided. *)
Definition of_decimal (m e : Z) : number :=
  if (m =? 0)%Z then zero
  else if (0 <=? e)%Z then
    SF2Prim (binary_normalize prec emax (m * 10 ^ e) 0 false)
  else
    let d := (10 ^ (- e))%Z in
    let k := Z.max 0 (64 + Z.log2 d - Z.log2 m) in
    let n := (m * 2 ^ k)%Z in
    let sticky := if (n mod d =? 0)%Z then 0%Z else 1%Z in
    SF2Prim (binary_normalize prec emax (2 * (n / d) + sticky) (- k - 1)
               false).

(** [ExponentPart], when one starts [s]; 0 otherwise. *)
Definition read_exponent (s : string) : Z :=
  match s with
  | String c s1 =>
      if byte_is c 101 || byte_is c 69 then
        let '(negative, s2) :=
          match s1 with
          | String c1 s2 =>
              if byte_is c1 45 then (true, s2)
              else if byte_is c1 43 then (false, s2)
              else (false, s1)
          | "" => (false, s1)
          end in
        let '(x, count, _) := read_digits s2 0 0 in
        if (count =? 0)%Z then 0%Z else if negative then (- x)%Z else x
      else 0%Z
  | "" => 0%Z
  end.

(** [StrUnsignedDecimalLiteral] at the start of [s]. *)
Definition read_unsigned (s : string) : option number :=
  if prefix "Infinity" s then Some infinity
  else
    let '(whole, n_whole, s1) := read_digits s 0 0 in
    let '(mantissa, n_fraction, s2) :=
      match s1 with
      | String c s1' =>
          if byte_is c 46 then read_digits s1' whole 0 else (whole, 0%Z, s1)
      | "" => (whole, 0%Z, s1)
      end in
    if ((n_whole =? 0) && (n_fraction =? 0))%Z then None
    else Some (of_decimal mantissa (read_exponent s2 - n_fraction)).

(** Modelled from the spec: the engine's [parseFloat], of which the design
    document says "standard decimal parsing, no locale awareness, no radix
    prefixes". The details follow ECMA-262: leading white space is dropped,
    the longest prefix that is a [StrDecimalLiteral] is read, its value is
    rounded to the nearest double, and [NaN] is returned when there is no
    such prefix. *)
Definition parse_float (s : string) : number :=
  let s := trim_start s in
  let '(negative, s1) :=
    match s with
    | String c s1 =>
        if byte_is c 45 then (true, s1)
        else if byte_is c 43 then (false, s1)
        else (false, s)
    | "" => (false, s)
    end in
  match read_unsigned s1 with
  | Some x => if negative then (- x)%float else x
  | None => nan
  end.

(** *** The libraries *)

(** A node is the call that built it. *)
Inductive Tree : Type :=
| Built (name : string) (args : list (Value Tree)).

Definition quote : string := String (ascii_of_nat 34) "".

(** Identifiers, string literals and expression statements print as
    TypeScript prints them; every other node prints as the name of its
    factory. *)
Fixpoint render (n : Tree) : string :=
  match n with
  | Built name args =>
      match args with
      | [VString text] =>
          if (name =? "createIdentifier")%string then text
          else if (name =? "createStringLiteral")%string
               then quote ++ text ++ quote
               else name
      | [VNode expression] =>
          if (name =? "createExpressionStatement")%string
          then render expression ++ ";"
          else name
      | _ => name
      end
  end.

Definition statement_factories : list string :=
  [ "createBlock"; "createEmptyStatement"; "createVariableStatement";
    "createExpressionStatement"; "createIfStatement";
    "createReturnStatement"; "createFunctionDeclaration";
    "createClassDeclaration" ].

Definition expression_factories : list string :=
  [ "createIdentifier"; "createStringLiteral"; "createNumericLiteral";
    "createCallExpression"; "createBinaryExpression" ].

Definition built_by (names : list string) (v : Value Tree)
  : string + bool :=
  match v with
  | VNode (Built name _) => inr (existsb (String.eqb name) names)
  | VNull | VUndefined =>
      inl "TypeError: Cannot read properties of undefined (reading 'kind')"
  | _ => inr false
  end.

(** A few syntax kinds; an object that is not a node has none. *)
Definition kind_of_tree (n : Tree) : option N :=
  match n with
  | Built name _ =>
      if (name =? "createIdentifier")%string then Some 80%N
      else if (name =? "createStringLiteral")%string then Some 11%N
      else if (name =? "createExpressionStatement")%string then Some 244%N
      else if (name =? "Object")%string then None
      else Some 0%N
  end.

Definition ends_with_LF (text : string) : bool :=
  match rev (list_ascii_of_string text) with
  | c :: _ => byte_is c 10
  | [] => false
  end.

(** A checker that knows one fixable rule, the final line feed, and one
    problem it cannot fix, a text that starts with a question mark. *)
Definition lint (r : Rules) (text : string) : string + list LintResult :=
  if is_empty text then inr [ {| output := None; messages := [] |} ]
  else if prefix "?" text then
    inr [ {| output := None;
             messages :=
               [ {| line := Some 1%N; column := Some 1%N;
                    message := "Parsing error: Expression expected." |} ] |} ]
  else
    match eol_last r with
    | always =>
        if ends_with_LF text then inr [ {| output := None; messages := [] |} ]
        else inr [ {| output := Some (text ++ LF)%string; messages := [] |} ]
    | never => inr [ {| output := None; messages := [] |} ]
    end.

Definition platform : Platform :=
  {| Node := Tree;
     LibExn := string;
     parseFloat := parse_float;
     object_prototype_call name args :=
       if (name =? "toString")%string then inr (VString "[object Undefined]")
       else if (name =? "constructor")%string
            then inr (VNode (Built "Object" args))
            else inl "TypeError: Cannot convert undefined or null to object";
     ts_factory name args := inr (Built name args);
     ts_isStatement := built_by statement_factories;
     ts_isExpression := built_by expression_factories;
     kind := kind_of_tree;
     ts_printNode _ n := inr (render n);
     ts_printFile _ statements :=
       inr (String.concat
              "" (map (fun n => (render n ++ LF)%string) statements));
     ts_printList _ nodes := inr (String.concat LF (map render nodes));
     eslint_lintText := lint |}.

(** *** Sample inputs *)

Definition called (name : string) (args : list (Value Tree)) : Call :=
  @Build_Call platform name args.

Definition identifier_a : SerializedNode :=
  SFactory "createIdentifier" [SLiteral (LString "a")].

Definition built_a : Tree := Built "createIdentifier" [VString "a"].

End Reference.

(** ** A reference host

    A stand-in for the collaborators of the command line. *)

Module ReferenceCli.

(** The white space [trim] removes, met from the end of the text. *)
Fixpoint trim_end_rev (l : list ascii) : list ascii :=
  match l with
  | c :: l1 =>
      if Reference.is_ascii_space c then trim_end_rev l1
      else
        match l1 with
        | b :: l2 =>
            if Reference.byte_is b 194 && Reference.byte_is c 160
            then trim_end_rev l2
            else
              match l2 with
              | a :: l3 =>
                  if Reference.is_space3 a b c then trim_end_rev l3 else l
              | [] => l
              end
        | [] => l
        end
  | [] => l
  end.

Definition trim_both (s : string) : string :=
  string_of_list_ascii
    (rev (trim_end_rev (rev (list_ascii_of_string (Reference.trim_start s))))).

(** A parser that knows three texts. *)
Definition parse (s : string) : option Json :=
  if (s =? "[]")%string then Some (JArray [])
  else if (s =? "null")%string then Some JNull
  else if (s =? "[null]")%string then Some (JArray [JNull])
  else None.

(** A generator that refuses [null] and gives one line for each node. *)
Definition generate (nodes : list Json) : Thrown + string :=
  if existsb (fun n => match n with JNull => true | _ => false end) nodes
  then inl (ErrorObject "Unknown node type: undefined")
  else inr (String.concat "" (map (fun _ => ";" ++ LF)%string nodes)).

(** The directory of a path: what stands before its last slash. *)
Fixpoint directory (path : string) : string :=
  match path with
  | String c rest =>
      if existsb (fun x => Reference.byte_is x 47) (list_ascii_of_string rest)
      then String c (directory rest)
      else ""
  | "" => ""
  end.

(** A process started with the given options, whose standard input is a
    pipe that delivers [input], in the directory [/work], on a disk that
    accepts every write. *)
Definition host (options : CliOptions) (input : string) : Host :=
  {| parseArgs := inr options;
     stdin_isTTY := false;
     stdin_data := inr input;
     trim := trim_both;
     JSON_parse := parse;
     toTypeScriptFile := generate;
     resolve path := ("/work/" ++ path)%string;
     dirname := directory;
     mkdirSync _ := None;
     writeFileSync _ _ := None |}.

Definition to_file (path : string) : CliOptions :=
  {| cli_output := Some path; cli_help := None; cli_version := None |}.

(** The same process started from a terminal, with nothing piped in. *)
Definition terminal (options : CliOptions) : Host :=
  {| parseArgs := inr options;
     stdin_isTTY := true;
     stdin_data := inr "";
     trim := trim_both;
     JSON_parse := parse;
     toTypeScriptFile := generate;
     resolve path := ("/work/" ++ path)%string;
     dirname := directory;
     mkdirSync _ := None;
     writeFileSync _ _ := None |}.

End ReferenceCli.

(** ** A reference platform whose factory can throw *)

Module ReferenceStrict.

(** [createIdentifier] insists on one string. *)
Definition factory (name : string) (args : list (Value Reference.Tree))
  : string + Reference.Tree :=
  if (name =? "createIdentifier")%string then
    match args with
    | [VString _] => inr (Reference.Built name args)
    | _ => inl "Debug Failure. False expression."
    end
  else inr (Reference.Built name args).

Definition platform : Platform :=
  {| Node := Reference.Tree;
     LibExn := string;
     parseFloat := Reference.parse_float;
     object_prototype_call := @object_prototype_call Reference.platform;
     ts_factory := factory;
     ts_isStatement := @ts_isStatement Reference.platform;
     ts_isExpression := @ts_isExpression Reference.platform;
     kind := Reference.kind_of_tree;
     ts_printNode := @ts_printNode Reference.platform;
     ts_printFile := @ts_printFile Reference.platform;
     ts_printList := @ts_printList Reference.platform;
     eslint_lintText := Reference.lint |}.

End ReferenceStrict.

(** ** A reference platform whose checker leaves two messages *)

Module ReferenceDiagnostics.

Definition unexpected : LintMessage :=
  {| line := Some 12%N; column := Some 7%N; message := "Unexpected token" |}.

(** A message without a column. *)
Definition unplaced : LintMessage :=
  {| line := Some 103%N; column := None; message := "Parsing error" |}.

Definition lint (r : Rules) (text : string) : string + list LintResult :=
  inr [ {| output := None; messages := [unexpected; unplaced] |} ].

Definition platform : Platform :=
  {| Node := Reference.Tree;
     LibExn := string;
     parseFloat := Reference.parse_float;
     object_prototype_call := @object_prototype_call Reference.platform;
     ts_factory := @ts_factory Reference.platform;
     ts_isStatement := @ts_isStatement Reference.platform;
     ts_isExpression := @ts_isExpression Reference.platform;
     kind := Reference.kind_of_tree;
     ts_printNode := @ts_printNode Reference.platform;
     ts_printFile := @ts_printFile Reference.platform;
     ts_printList := @ts_printList Reference.platform;
     eslint_lintText := lint |}.

End ReferenceDiagnostics.

(** ** Sample inputs *)

Module Samples.

Definition bogus : SerializedNode := SFactory "bogusThing" [].

Definition statement_a : SerializedNode :=
  SFactory "createExpressionStatement" [Reference.identifier_a].

Definition built_statement_a : Reference.Tree :=
  Reference.Built "createExpressionStatement" [VNode Reference.built_a].

(** A call with an unknown name two levels down. *)
Definition around_bogus : SerializedNode :=
  SFactory "createExpressionStatement" [SFactory "__array__" [bogus]].

(** An identifier without its text. *)
Definition identifier_none : SerializedNode :=
  SFactory "createIdentifier" [].

Definition pair : SerializedNode :=
  SFactory "__array__" [Reference.identifier_a; SLiteral LNull].

(** Every option at its documented default. *)
Definition defaults : PrinterOptions :=
  {| singleQuote := Some false; trailingNewline := Some true;
     indentWidth := Some 2%float; removeComments := Some false |}.

Definition clean : list LintResult := [ {| output := None; messages := [] |} ].

End Samples.

(** * Properties *)

(** ** Computations *)

Module EffFacts.
Import Eff.

Lemma bind_ret_l {Ev X A B} (a : A) (f : A -> t Ev X B) :
  bind (ret a) f = f a.
Proof. unfold bind, ret. destruct (f a); reflexivity. Qed.

Lemma bind_ret_r {Ev X A} (m : t Ev X A) : bind m ret = m.
Proof.
  destruct m as [l [e | a]]; simpl; [reflexivity |].
  now rewrite app_nil_r.
Qed.

Lemma bind_assoc {Ev X A B C} (m : t Ev X A) (f : A -> t Ev X B)
    (g : B -> t Ev X C) :
  bind (bind m f) g = bind m (fun a => bind (f a) g).
Proof.
  destruct m as [l [e | a]]; simpl; [reflexivity |].
  destruct (f a) as [l1 [e | b]]; simpl; [reflexivity |].
  destruct (g b) as [l2 r]. now rewrite app_assoc.
Qed.

Lemma bind_throws {Ev X A B} (m : t Ev X A) (f : A -> t Ev X B) l e :
  m = (l, inl e) -> bind m f = (l, inl e).
Proof. now intros ->. Qed.

Lemma bind_returns {Ev X A B} (m : t Ev X A) (f : A -> t Ev X B) l a :
  m = (l, inr a) -> bind m f = (l ++ log (f a), outcome (f a)).
Proof. intros ->. simpl. now destruct (f a). Qed.

(** What [bind] was applied to, read off its result. *)
Lemma bind_inv {Ev X A B} (m : t Ev X A) (f : A -> t Ev X B) l r :
  bind m f = (l, r) ->
  (exists e, m = (l, inl e) /\ r = inl e)
  \/ (exists l1 a l2, m = (l1, inr a) /\ f a = (l2, r) /\ l = l1 ++ l2).
Proof.
  destruct m as [l1 [e | a]]; simpl.
  - intros [= <- <-]. left. now exists e.
  - destruct (f a) as [l2 r2] eqn:Hf. intros [= <- <-].
    right. now exists l1, a, l2.
Qed.

Section MapM.
Context {Ev X A B : Type} (f : A -> t Ev X B).

Lemma mapM_nil : mapM f [] = ret [].
Proof. reflexivity. Qed.

Lemma mapM_cons a l :
  mapM f (a :: l)
  = bind (f a) (fun b => bind (mapM f l) (fun bs => ret (b :: bs))).
Proof. reflexivity. Qed.

(** Every element returns: the logs follow one another in the order of
    the list, and so do the values. *)
Lemma mapM_returns l (rs : list (list Ev * B)) :
  Forall2 (fun a r => f a = (fst r, inr (snd r))) l rs ->
  mapM f l = (List.concat (map fst rs), inr (map snd rs)).
Proof.
  induction 1 as [| a [la b] l rs Ha _ IH]; [reflexivity |].
  rewrite mapM_cons, IH. simpl in Ha. rewrite Ha. simpl.
  now rewrite app_nil_r.
Qed.

(** The first element that throws ends the traversal. *)
Lemma mapM_throws l1 a l2 (rs : list (list Ev * B)) la e :
  Forall2 (fun a r => f a = (fst r, inr (snd r))) l1 rs ->
  f a = (la, inl e) ->
  mapM f (l1 ++ a :: l2) = (List.concat (map fst rs) ++ la, inl e).
Proof.
  intros H Ha.
  induction H as [| a1 [l b] l1 rs Ha1 _ IH]; simpl app.
  - rewrite mapM_cons, Ha. simpl. reflexivity.
  - rewrite mapM_cons, IH. simpl in Ha1. rewrite Ha1. simpl.
    now rewrite app_assoc.
Qed.

(** An exception of the traversal is the exception of an element. *)
Lemma mapM_throws_inv l lg e :
  mapM f l = (lg, inl e) -> exists a la, In a l /\ f a = (la, inl e).
Proof.
  revert lg. induction l as [| a l IH]; intros lg; [discriminate |].
  rewrite mapM_cons. intros H.
  apply bind_inv in H as [(e' & Ha & [= <-]) | (l1 & b & l2 & Ha & H & _)].
  - exists a, lg. split; [now left | assumption].
  - apply bind_inv in H
      as [(e' & Hl & [= <-]) | (l3 & bs & l4 & _ & H & _)];
      [| discriminate].
    destruct (IH _ Hl) as (a' & la & Hin & Ha').
    exists a', la. split; [now right | assumption].
Qed.
End MapM.
End EffFacts.

(** ** The operation table *)

Section TableFacts.
Context {platform : Platform}.

Lemma own_tabulate {A} (g : string -> A) names key :
  own (map (fun name => (name, g name)) names) key
  = if existsb (String.eqb key) names then Some (g key) else None.
Proof.
  induction names as [| n names IH]; [reflexivity |]. simpl.
  rewrite (String.eqb_sym key n).
  destruct (String.eqb_spec n key) as [-> | _]; [reflexivity | exact IH].
Qed.

Lemma existsb_eqb_In key names :
  existsb (String.eqb key) names = true <-> In key names.
Proof.
  rewrite existsb_exists. split.
  - intros (x & Hin & Heq). now apply String.eqb_eq in Heq as ->.
  - intros Hin. exists key. split; [assumption | apply String.eqb_refl].
Qed.

Lemma own_factoryMap_In name :
  In name factory_names -> own factoryMap name = Some (operation name).
Proof.
  intros Hin. unfold factoryMap. rewrite (own_tabulate operation).
  now apply existsb_eqb_In in Hin as ->.
Qed.

Lemma own_factoryMap_not_In name :
  ~ In name factory_names -> own factoryMap name = None.
Proof.
  intros Hin. unfold factoryMap. rewrite (own_tabulate operation).
  destruct (existsb (String.eqb name) factory_names) eqn:E;
    [| reflexivity].
  now apply existsb_eqb_In in E.
Qed.

Lemma get_factoryMap_own name :
  In name factory_names ->
  get_factoryMap name = Some (Function (operation name)).
Proof.
  intros Hin. unfold get_factoryMap. now rewrite own_factoryMap_In.
Qed.

Lemma get_factoryMap_absent name :
  ~ In name factory_names -> ~ In name object_prototype_keys ->
  get_factoryMap name = None.
Proof.
  intros Hown Hproto. unfold get_factoryMap, object_prototype.
  rewrite own_factoryMap_not_In by assumption.
  destruct (existsb (String.eqb name) object_prototype_keys) eqn:E;
    [| reflexivity].
  now apply existsb_eqb_In in E.
Qed.

Lemma toString_not_own : ~ In "toString" factory_names.
Proof.
  intros H. apply existsb_eqb_In in H. vm_compute in H. discriminate.
Qed.

Lemma get_factoryMap_toString :
  get_factoryMap "toString"
  = Some (Function (object_prototype_call "toString")).
Proof.
  unfold get_factoryMap.
  now rewrite (own_factoryMap_not_In _ toString_not_own).
Qed.

(** The key that an absent [name] reads is found nowhere. *)
Lemma get_factoryMap_undefined : get_factoryMap "undefined" = None.
Proof.
  apply get_factoryMap_absent; intros H; apply existsb_eqb_In in H;
    vm_compute in H; discriminate.
Qed.

(** No name of the table is the array sentinel or an inherited name. *)
Lemma factory_names_disjoint name :
  In name factory_names ->
  name <> "__array__" /\ ~ In name object_prototype_keys.
Proof.
  intros Hin.
  assert (H : forallb
                (fun n => negb (n =? "__array__")%string
                          && negb (existsb (String.eqb n)
                                     object_prototype_keys))
                factory_names = true) by (vm_compute; reflexivity).
  rewrite forallb_forall in H. specialize (H _ Hin).
  apply andb_prop in H as [H1 H2].
  apply negb_true_iff in H1, H2. split.
  - now apply String.eqb_neq.
  - intros Hp. apply existsb_eqb_In in Hp. congruence.
Qed.
End TableFacts.

(** ** The deserializer *)

Section DeserializerFacts.
Context {platform : Platform}.
Import EffFacts.

Lemma deserialize_factory name args :
  deserialize (SFactory name args) = deserializeFactory deserialize name args.
Proof. reflexivity. Qed.

Lemma apply_throws name factory args l e :
  apply name factory args = (l, inl e) -> thrown_by_deserialize e.
Proof.
  destruct factory as [f |]; simpl.
  - unfold Eff.call. destruct (f args) as [x | v]; intros [= _ <-].
    right. left. now exists x.
  - intros [= _ <-]. now left.
Qed.

(** An object with nothing but a type calls nothing: it gives [undefined]
    when a guard other than [isFactory] holds of it, and is refused
    otherwise. *)
Lemma deserialize_bare type :
  deserialize (SBare type)
  = ([], if (isLiteral (SBare type) || isUndefined (SBare type)
             || isNumber (SBare type))%bool
         then inr VUndefined
         else if isFactory (SBare type)
              then inl (Error "Unknown factory method: undefined")
              else inl (Error ("Unknown node type: " ++ type))).
Proof.
  cbn [deserialize]. rewrite get_factoryMap_undefined.
  destruct (isLiteral (SBare type)); [reflexivity |].
  destruct (isUndefined (SBare type)); [reflexivity |].
  destruct (isNumber (SBare type)); [reflexivity |].
  now destruct (isFactory (SBare type)).
Qed.

Lemma deserialize_throws node :
  forall l e, deserialize node = (l, inl e) -> thrown_by_deserialize e.
Proof.
  induction node as [value | value | name args IH | | type]
    using SerializedNode_ind'; intros l e; try discriminate;
    [| rewrite deserialize_bare;
       destruct (_ || _)%bool; [discriminate |];
       destruct (isFactory _); intros [= _ <-]; right; right;
       [left; now exists "undefined" | right; now exists type]].
  rewrite deserialize_factory. unfold deserializeFactory.
  rewrite Forall_forall in IH.
  assert (Hargs : forall lg, Eff.mapM deserialize args = (lg, inl e) ->
                             thrown_by_deserialize e).
  { intros lg H. apply mapM_throws_inv in H as (a & la & Hin & Ha).
    exact (IH a Hin la e Ha). }
  destruct (name =? "__array__")%string.
  - intros H. apply bind_inv in H
      as [(e' & H & [= <-]) | (l1 & vs & l2 & _ & H & _)];
      [eauto | discriminate].
  - destruct (get_factoryMap name) as [factory |].
    + intros H. apply bind_inv in H
        as [(e' & H & [= <-]) | (l1 & vs & l2 & _ & H & _)];
        [eauto | eapply apply_throws; eassumption].
    + intros [= _ <-]. right. right. left. now exists name.
Qed.

(** On a name of the table, [deserializeFactory] is the traversal of the
    arguments followed by one call of the entry. *)
Lemma deserialize_factory_own name args :
  name <> "__array__" -> In name factory_names ->
  deserialize (SFactory name args)
  = (values <- Eff.mapM deserialize args ;;
     Eff.call {| callee := name; arguments := values |}
              (operation name values)).
Proof.
  intros Hname Hin. rewrite deserialize_factory. unfold deserializeFactory.
  apply String.eqb_neq in Hname as ->.
  now rewrite (get_factoryMap_own name Hin).
Qed.

(** C1: a factory node whose name is in the operation table (and so is not
    the array sentinel) deserializes its arguments from left to right, each
    one wholly before the next, and then invokes the operation found under
    that name on the list of their values, in order; the result of that
    invocation is the result. *)
Theorem deserialize_factory_invokes_operation name args :
  name <> "__array__" -> In name factory_names ->
  deserialize (SFactory name args)
  = (values <- Eff.mapM deserialize args ;;
     Eff.call {| callee := name; arguments := values |}
              (operation name values))
  /\ forall rs : list (list Call * Value Node),
      Forall2 (fun a r => deserialize a = (fst r, inr (snd r))) args rs ->
      deserialize (SFactory name args)
      = (List.concat (map fst rs)
           ++ [ {| callee := name; arguments := map snd rs |} ],
         match ts_factory name (map snd rs) with
         | inl e => inl (Raised e)
         | inr n => inr (VNode n)
         end).
Proof.
  intros Hname Hin.
  pose proof (deserialize_factory_own name args Hname Hin) as E.
  split; [exact E |].
  intros rs Hrs. rewrite E.
  rewrite (bind_returns _ _ _ _ (mapM_returns deserialize args rs Hrs)).
  unfold Eff.call, operation. simpl.
  now destruct (ts_factory name (map snd rs)).
Qed.

(** An argument that throws ends the call: the arguments after it are not
    deserialized and the operation is not invoked. *)
Lemma deserialize_factory_argument_throws name args1 a args2 rs la e :
  In name factory_names ->
  Forall2 (fun a r => deserialize a = (fst r, inr (snd r))) args1 rs ->
  deserialize a = (la, inl e) ->
  deserialize (SFactory name (args1 ++ a :: args2))
  = (List.concat (map fst rs) ++ la, inl e).
Proof.
  intros Hin Hrs Ha.
  destruct (factory_names_disjoint name Hin) as [Hname _].
  rewrite (deserialize_factory_own name _ Hname Hin).
  apply bind_throws. now apply mapM_throws.
Qed.

(** A name found neither in the table nor on its prototype chain is
    refused before anything is deserialized or invoked. *)
Lemma deserialize_unknown_factory name args :
  name <> "__array__" ->
  ~ In name factory_names -> ~ In name object_prototype_keys ->
  deserialize (SFactory name args)
  = ([], inl (Error ("Unknown factory method: " ++ name))).
Proof.
  intros Hname Hown Hproto.
  rewrite deserialize_factory. unfold deserializeFactory.
  apply String.eqb_neq in Hname as ->.
  now rewrite get_factoryMap_absent.
Qed.

(** C2, at the name [toString]: it is not in the operation table and is
    not the array sentinel, yet [factoryMap["toString"]] finds the function
    every object inherits from [Object.prototype]; the node is not refused
    as an unknown factory method, the inherited function is invoked, and
    its result or exception is the outcome. *)
Theorem deserialize_inherited_name_is_invoked :
  ~ In "toString" factory_names
  /\ "toString" <> "__array__"
  /\ deserialize (SFactory "toString" [])
     = Eff.call {| callee := "toString"; arguments := [] |}
                (object_prototype_call "toString" [])
  /\ Eff.log (deserialize (SFactory "toString" []))
     = [ {| callee := "toString"; arguments := [] |} ]
  /\ forall message,
      Eff.outcome (deserialize (SFactory "toString" []))
      <> inl (Error message).
Proof.
  assert (E : deserialize (SFactory "toString" [])
              = Eff.call {| callee := "toString"; arguments := [] |}
                         (object_prototype_call "toString" [])).
  { rewrite deserialize_factory. unfold deserializeFactory.
    replace ("toString" =? "__array__")%string with false by reflexivity.
    rewrite get_factoryMap_toString, mapM_nil, bind_ret_l. reflexivity. }
  refine (conj toString_not_own (conj _ (conj E (conj _ _)))).
  - discriminate.
  - now rewrite E.
  - intros message. rewrite E. unfold Eff.call, Eff.outcome. simpl.
    destruct (object_prototype_call "toString" []); discriminate.
Qed.

(** C3: a factory node named by the array sentinel deserializes its
    arguments from left to right and returns the sequence of their values
    in the same order, without invoking anything of its own; for two
    arguments [A] and [B] that is the sequence of the value of [A] and the
    value of [B]. *)
Theorem deserialize_array args :
  deserialize (SFactory "__array__" args)
  = (elements <- Eff.mapM deserialize args ;; Eff.ret (VArray elements))
  /\ (forall rs : list (list Call * Value Node),
        Forall2 (fun a r => deserialize a = (fst r, inr (snd r))) args rs ->
        deserialize (SFactory "__array__" args)
        = (List.concat (map fst rs), inr (VArray (map snd rs))))
  /\ (forall A B la a lb b,
        deserialize A = (la, inr a) -> deserialize B = (lb, inr b) ->
        deserialize (SFactory "__array__" [A; B])
        = (la ++ lb, inr (VArray [a; b]))).
Proof.
  assert (E : forall l,
             deserialize (SFactory "__array__" l)
             = (elements <- Eff.mapM deserialize l ;;
                Eff.ret (VArray elements))) by reflexivity.
  assert (R : forall l (rs : list (list Call * Value Node)),
             Forall2 (fun a r => deserialize a = (fst r, inr (snd r))) l rs ->
             deserialize (SFactory "__array__" l)
             = (List.concat (map fst rs), inr (VArray (map snd rs)))).
  { intros l rs Hrs. rewrite E.
    rewrite (bind_returns _ _ _ _ (mapM_returns deserialize l rs Hrs)).
    simpl. now rewrite app_nil_r. }
  refine (conj (E args) (conj (R args) _)).
  intros A B la a lb b HA HB.
  rewrite (R [A; B] [(la, a); (lb, b)]).
  - simpl. now rewrite app_nil_r.
  - repeat constructor; assumption.
Qed.

(** C5: a literal node deserializes to its payload and nothing else
    happens: [null] to [null] (which is not [undefined]), a boolean to that
    boolean, a string to that string. *)
Theorem deserialize_literal :
  (forall value, deserialize (SLiteral value) = Eff.ret (literal value))
  /\ deserialize (SLiteral LNull) = ([], inr VNull)
  /\ deserialize (SLiteral LNull) <> ([], inr VUndefined)
  /\ (forall b, deserialize (SLiteral (LBool b)) = ([], inr (VBool b)))
  /\ (forall s, deserialize (SLiteral (LString s)) = ([], inr (VString s)))
  /\ (forall v w, literal v = literal w -> v = w).
Proof.
  repeat split; try reflexivity; try discriminate.
  intros [| b | s] [| b' | s']; simpl; congruence.
Qed.

(** C4: a number node deserializes to its payload when that is a native
    number, and to what [parseFloat] reads in it when it is a string; with
    the reference [parseFloat] the string 3.14 gives the double 3.14, a
    radix prefix is not read as one (only the zero before the [x] is) and
    a comma is not a decimal separator. *)
Theorem deserialize_number :
  (forall x, deserialize (SNumber (NumNative x)) = ([], inr (VNumber x)))
  /\ (forall s,
        deserialize (SNumber (NumString s))
        = ([], inr (VNumber (parseFloat s))))
  /\ deserialize (platform := Reference.platform)
                  (SNumber (NumString "3.14"))
     = ([], inr (VNumber 3.14%float))
  /\ deserialize (platform := Reference.platform)
                  (SNumber (NumNative 42%float))
     = ([], inr (VNumber 42%float))
  /\ Reference.parse_float "42" = 42%float
  /\ Reference.parse_float "0x10" = 0%float
  /\ Reference.parse_float "1,5" = 1%float.
Proof.
  repeat split; vm_compute; reflexivity.
Qed.

(** C10: a number node whose string payload does not read as a finite
    number is not refused: [deserialize] throws nothing and returns what
    [parseFloat] made of the string, which is [NaN] or an infinity. *)
Theorem deserialize_number_not_validated s :
  is_finite (parseFloat s) = false ->
  deserialize (SNumber (NumString s)) = ([], inr (VNumber (parseFloat s)))
  /\ (forall e,
        Eff.outcome (deserialize (SNumber (NumString s))) <> inl e)
  /\ (is_nan (parseFloat s) = true \/ is_infinity (parseFloat s) = true).
Proof.
  intros H. repeat split.
  - discriminate.
  - unfold is_finite in H. apply negb_false_iff, orb_prop in H. exact H.
Qed.

(** The typed projection on a result that is an object, a string, a
    number, a boolean or an array, when the predicate answers. *)
Lemma deserializeStatement_checked node l v :
  deserialize node = (l, inr v) ->
  (ts_isStatement v = inr true -> deserializeStatement node = (l, inr v))
  /\ (ts_isStatement v = inr false -> v <> VNull -> v <> VUndefined ->
      exists k,
        kind_of v = ([], inr k)
        /\ deserializeStatement node
           = (l, inl (Error ("Expected a statement, got: " ++ k)))).
Proof.
  intros Hv. unfold deserializeStatement. split; intros Hs.
  - rewrite (bind_returns _ _ _ _ Hv), Hs. simpl. now rewrite app_nil_r.
  - intros Hnull Hundef.
    assert (exists k, kind_of v = ([], inr k)) as [k Hk]
        by (destruct v; try (eexists; reflexivity); congruence).
    exists k. split; [exact Hk |].
    rewrite (bind_returns _ _ _ _ Hv), Hs. simpl. rewrite Hk. simpl.
    now rewrite app_nil_r.
Qed.

(** The typed projection on a result that is [null] or [undefined]. *)
Lemma deserializeStatement_nullish node l v :
  deserialize node = (l, inr v) -> v = VNull \/ v = VUndefined ->
  deserializeStatement node
  = (l, match ts_isStatement v with
        | inl e => inl (Raised e)
        | inr true => inr v
        | inr false => inl TypeError
        end).
Proof.
  intros Hv Hnullish. unfold deserializeStatement.
  rewrite (bind_returns _ _ _ _ Hv). unfold Eff.lift.
  destruct (ts_isStatement v) as [e | [|]]; simpl;
    try (now rewrite app_nil_r).
  destruct Hnullish as [-> | ->]; simpl; now rewrite app_nil_r.
Qed.

(** X12: [deserializeStatements] stops at the first node that fails: the
    calls made are those of the nodes before it and its own, the nodes
    after it are not deserialized, and its exception is the outcome. *)
Lemma deserializeStatements_throws nodes1 node nodes2 rs l e :
  Forall2 (fun a r => deserializeStatement a = (fst r, inr (snd r)))
          nodes1 rs ->
  deserializeStatement node = (l, inl e) ->
  deserializeStatements (nodes1 ++ node :: nodes2)
  = (List.concat (map fst rs) ++ l, inl e).
Proof. apply mapM_throws. Qed.

(** C6, at the node of type [undefined]: its result is [undefined], which
    is no statement, and the failure is not the error that reports a kind.
    Reading [kind] off [undefined] throws first, inside [ts.isStatement]
    or, should that answer [false], in the message of the error itself. *)
Theorem deserializeStatement_of_undefined :
  deserializeStatement SUndefined
  = ([], match ts_isStatement VUndefined with
         | inl e => inl (Raised e)
         | inr true => inr VUndefined
         | inr false => inl TypeError
         end)
  /\ (forall message,
        Eff.outcome (deserializeStatement SUndefined)
        <> inl (Error message))
  /\ deserializeStatement (platform := Reference.platform) SUndefined
     = ([], inl (Raised
          "TypeError: Cannot read properties of undefined (reading 'kind')")).
Proof.
  assert (E := deserializeStatement_nullish SUndefined [] VUndefined
                 eq_refl (or_intror eq_refl)).
  refine (conj E (conj _ eq_refl)).
  intros message. rewrite E. unfold Eff.outcome. simpl.
  destruct (ts_isStatement VUndefined) as [e | [|]]; discriminate.
Qed.

(** C7: [deserializeDeclaration] is [deserialize]: the same calls, the
    same value whatever it is (a string, say), the same exception, and
    never the error of a failed narrowing. *)
Theorem deserializeDeclaration_unchecked node :
  deserializeDeclaration node = deserialize node
  /\ (forall l v,
        deserialize node = (l, inr v) ->
        deserializeDeclaration node = (l, inr v))
  /\ (forall l e,
        deserializeDeclaration node = (l, inl e) ->
        deserialize node = (l, inl e)
        /\ forall message,
            prefix "Expected" message = true -> e <> Error message)
  /\ deserializeDeclaration (SLiteral (LString "x"))
     = ([], inr (VString "x")).
Proof.
  assert (E : deserializeDeclaration node = deserialize node)
    by apply bind_ret_r.
  refine (conj E (conj _ (conj _ eq_refl))).
  - intros l v H. now rewrite E.
  - intros l e H. rewrite E in H. split; [exact H |].
    intros message Hprefix ->.
    destruct (deserialize_throws node l _ H)
      as [Hd | [[x Hd] | [[name Hd] | [type Hd]]]]; try discriminate;
      injection Hd as ->; simpl in Hprefix; discriminate.
Qed.

End DeserializerFacts.

(** ** The printer *)

Section StringFacts.
Lemma string_app_assoc (a b c : string) :
  ((a ++ b) ++ c = a ++ b ++ c)%string.
Proof. induction a as [| x a IH]; simpl; [reflexivity | now rewrite IH]. Qed.

Lemma string_app_nil_r (a : string) : (a ++ "" = a)%string.
Proof. induction a as [| x a IH]; simpl; [reflexivity | now rewrite IH]. Qed.

Lemma occurs_in_refl s : occurs_in s s.
Proof. exists "", "". simpl. now rewrite string_app_nil_r. Qed.

Lemma occurs_in_app_l s t u : occurs_in s t -> occurs_in s (t ++ u).
Proof.
  intros (b & a & ->). exists b, (a ++ u)%string.
  now rewrite !string_app_assoc.
Qed.

Lemma occurs_in_app_r s t u : occurs_in s t -> occurs_in s (u ++ t).
Proof.
  intros (b & a & ->). exists (u ++ b)%string, a.
  now rewrite !string_app_assoc.
Qed.

Lemma concat_cons sep x l :
  String.concat sep (x :: l)
  = match l with
    | [] => x
    | _ :: _ => (x ++ sep ++ String.concat sep l)%string
    end.
Proof. reflexivity. Qed.

(** Each string that [join] puts together occurs in the result. *)
Lemma occurs_in_concat sep x l :
  In x l -> occurs_in x (String.concat sep l).
Proof.
  induction l as [| y l IH]; [intros [] |].
  intros Hin. rewrite concat_cons. destruct l as [| z l].
  - destruct Hin as [-> | []]. apply occurs_in_refl.
  - destruct Hin as [-> | Hin].
    + apply occurs_in_app_l, occurs_in_refl.
    + now apply occurs_in_app_r, occurs_in_app_r, IH.
Qed.

Lemma is_empty_spec text : is_empty text = true <-> text = "".
Proof. destruct text; simpl; split; congruence. Qed.
End StringFacts.

Section PrinterFacts.
Context {platform : Platform}.
Import EffFacts.

(** Every call of [lintText] puts the text to the checker, once. *)
Lemma lintText_log text options :
  Eff.log (lintText text options)
  = [ {| rules := createLinter options; linted := text |} ].
Proof.
  unfold lintText, Eff.call, Eff.bind, Eff.log.
  destruct (eslint_lintText (createLinter options) text) as [e | result];
    [reflexivity |].
  destruct (hd_error result) as [[[fixed |] [| m ms]] |]; reflexivity.
Qed.

Lemma unable_to_lint_text text messages :
  occurs_in text (unable_to_lint text messages).
Proof.
  exists ("unable to lint printed node:" ++ LF ++ LF)%string,
         (LF ++ LF ++ "Errors:" ++ LF ++ messages)%string.
  reflexivity.
Qed.

Lemma unable_to_lint_messages text messages s :
  occurs_in s messages -> occurs_in s (unable_to_lint text messages).
Proof.
  intros (b & a & ->).
  exists ("unable to lint printed node:" ++ LF ++ LF ++ text
          ++ LF ++ LF ++ "Errors:" ++ LF ++ b)%string, a.
  unfold unable_to_lint. now rewrite !string_app_assoc.
Qed.

(** The digits [show_position] writes read back as the number. *)
Lemma show_position_reads p : reads_as p (show_position p).
Proof.
  destruct p as [n |]; [| reflexivity].
  unfold reads_as, show_position, show_N. apply NilZero.usu.
  destruct n as [| q]; [discriminate | apply Unsigned.to_uint_nonnil].
Qed.

(** C8: once the checker has answered for a text, [lintText] returns the
    fixed output when there is one; returns the text as it was when there
    is neither a fixed output nor a message (or no result at all); and
    otherwise throws an error whose message holds the whole text and, for
    every message left, the decimal digits of its line, a colon, the
    decimal digits of its column, a space and its text. *)
Theorem lintText_outcome text options result :
  eslint_lintText (createLinter options) text = inr result ->
  (forall r rest fixed,
      result = r :: rest -> output r = Some fixed ->
      Eff.outcome (lintText text options) = inr fixed)
  /\ (result = []
      \/ (exists r rest,
             result = r :: rest /\ output r = None /\ messages r = []) ->
      Eff.outcome (lintText text options) = inr text)
  /\ (forall r rest,
        result = r :: rest -> output r = None -> messages r <> [] ->
        exists msg,
          Eff.outcome (lintText text options) = inl (Error msg)
          /\ occurs_in text msg
          /\ Forall (fun m =>
                       exists at_line at_column,
                         reads_as (line m) at_line
                         /\ reads_as (column m) at_column
                         /\ occurs_in (at_line ++ ":" ++ at_column ++ " "
                                       ++ message m) msg)
                    (messages r)).
Proof.
  intros Hlint. unfold lintText, Eff.call. rewrite Hlint.
  repeat split.
  - intros r rest fixed -> Hfixed. simpl. now rewrite Hfixed.
  - intros [-> | (r & rest & -> & Hout & Hmsg)]; simpl; [reflexivity |].
    now rewrite Hout, Hmsg.
  - intros r rest -> Hout Hmsg. cbn [Eff.bind hd_error]. rewrite Hout.
    destruct (messages r) as [| m ms]; [congruence |].
    cbn [List.length Nat.eqb Eff.throw Eff.outcome snd].
    eexists. split; [reflexivity |]. split.
    + apply unable_to_lint_text.
    + apply Forall_forall. intros m' Hin.
      exists (show_position (line m')), (show_position (column m')).
      split; [apply show_position_reads |].
      split; [apply show_position_reads |].
      apply unable_to_lint_messages.
      apply (occurs_in_concat LF (show_message m')).
      now apply in_map.
Qed.

(** A text that is not empty goes to the checker. *)
Lemma printNode_lints node options text :
  ts_printNode (createPrinter options) node = inr text -> text <> "" ->
  printNode node options = lintText text options.
Proof.
  intros Hraw Hne. unfold printNode, Eff.lift. rewrite Hraw.
  unfold Eff.bind at 1.
  destruct (is_empty text) eqn:E.
  - now apply is_empty_spec in E.
  - now destruct (lintText text options).
Qed.

(** The three guarded operations stop at an empty text. *)
Lemma printNode_empty node options :
  ts_printNode (createPrinter options) node = inr "" ->
  printNode node options = ([], inr "").
Proof. intros H. unfold printNode, Eff.lift. now rewrite H. Qed.

Lemma printFile_empty statements options :
  ts_printFile (createPrinter options) statements = inr "" ->
  printFile statements options = ([], inr "").
Proof. intros H. unfold printFile, Eff.lift. now rewrite H. Qed.

Lemma printNodes_no_nodes options : printNodes [] options = ([], inr "").
Proof. reflexivity. Qed.

Lemma printNodes_empty nodes options parts :
  Eff.mapM (Ev := Lint)
           (fun node => Eff.lift (ts_printNode (createPrinter options) node))
           nodes = ([], inr parts) ->
  String.concat LF parts = "" ->
  printNodes nodes options = ([], inr "").
Proof.
  intros Hraw Hjoin. unfold printNodes.
  rewrite (bind_returns _ _ _ _ Hraw). now rewrite Hjoin.
Qed.

(** C9, at [printNodeList]: whatever the nodes print to, the text goes to
    the checker; with no node at all the reference printer gives the empty
    text, and that empty text is linted. *)
Theorem printNodeList_always_lints nodes options :
  Eff.log (printNodeList nodes options)
  = match ts_printList (createPrinter options) nodes with
    | inr text => [ {| rules := createLinter options; linted := text |} ]
    | inl _ => []
    end
  /\ Eff.log (printNodeList (platform := Reference.platform) [] no_options)
     = [ {| rules := createLinter no_options; linted := "" |} ]
  /\ printFile (platform := Reference.platform) [] no_options
     = ([], inr "").
Proof.
  refine (conj _ (conj eq_refl eq_refl)).
  unfold printNodeList, Eff.lift.
  destruct (ts_printList (createPrinter options) nodes) as [e | text];
    [reflexivity |].
  unfold Eff.bind at 1.
  pose proof (lintText_log text options) as Hlog.
  destruct (lintText text options) as [l r]. simpl in *. now subst.
Qed.
End PrinterFacts.

(** ** The theorems at work on the reference platform *)

Section Witnesses.
(** An expression statement around an identifier: the identifier is built
    first, the statement second. *)
Lemma deserialize_factory_invokes_operation_witness :
  "createExpressionStatement" <> "__array__"
  /\ In "createExpressionStatement" factory_names
  /\ deserialize (platform := Reference.platform)
       (SFactory "createExpressionStatement" [Reference.identifier_a])
     = ([ Reference.called "createIdentifier" [VString "a"];
          Reference.called "createExpressionStatement"
            [VNode Reference.built_a] ],
        inr (VNode (Reference.Built "createExpressionStatement"
                      [VNode Reference.built_a]))).
Proof.
  assert (Hname : "createExpressionStatement" <> "__array__")
    by discriminate.
  assert (Hin : In "createExpressionStatement" factory_names)
    by (apply existsb_eqb_In; reflexivity).
  refine (conj Hname (conj Hin _)).
  pose proof (proj2 (deserialize_factory_invokes_operation
                       (platform := Reference.platform)
                       "createExpressionStatement"
                       [Reference.identifier_a] Hname Hin)
                    [ ([ Reference.called "createIdentifier" [VString "a"] ],
                       VNode Reference.built_a) ]) as H.
  apply H. constructor; [reflexivity | constructor].
Defined.

(** A text on which the checker leaves a message at line 12, column 7,
    and one at line 103 that has no column. *)
Lemma lintText_outcome_witness :
  eslint_lintText (Platform := ReferenceDiagnostics.platform)
    (createLinter no_options) "x = ;"
  = inr [ {| output := None;
             messages := [ ReferenceDiagnostics.unexpected;
                           ReferenceDiagnostics.unplaced ] |} ]
  /\ exists msg,
      Eff.outcome (lintText (platform := ReferenceDiagnostics.platform)
                     "x = ;" no_options)
      = inl (Error msg)
      /\ occurs_in "x = ;" msg
      /\ occurs_in "12:7 Unexpected token" msg
      /\ occurs_in "103:undefined Parsing error" msg.
Proof.
  split; [reflexivity |].
  destruct (lintText_outcome (platform := ReferenceDiagnostics.platform)
              "x = ;" no_options _ eq_refl) as (_ & _ & H).
  destruct (H _ _ eq_refl eq_refl ltac:(discriminate))
    as (msg & Hmsg & Htext & Hall).
  exists msg. refine (conj Hmsg (conj Htext _)).
  pose proof (Forall_inv Hall) as (l1 & c1 & Hl1 & Hc1 & H1).
  pose proof (Forall_inv (Forall_inv_tail Hall)) as (l2 & c2 & Hl2 & Hc2 & H2).
  apply NilZero.sus in Hl1, Hc1, Hl2. simpl in Hc2. subst.
  exact (conj H1 H2).
Defined.

(** A payload that is no number at all. *)
Lemma deserialize_number_not_validated_witness :
  is_finite (parseFloat (Platform := Reference.platform) "abc") = false
  /\ deserialize (platform := Reference.platform)
       (SNumber (NumString "abc"))
     = ([], inr (VNumber nan)).
Proof.
  split; [reflexivity |].
  exact (proj1 (deserialize_number_not_validated
                  (platform := Reference.platform) "abc" eq_refl)).
Defined.

(** The reference [parseFloat] on payloads that are not finite numbers. *)
Example parse_float_not_finite :
  Reference.parse_float "abc" = nan
  /\ Reference.parse_float "" = nan
  /\ Reference.parse_float "Infinity" = infinity
  /\ Reference.parse_float "-Infinity" = neg_infinity
  /\ Reference.parse_float "1e400" = infinity.
Proof. repeat split; vm_compute; reflexivity. Qed.

(** The two inputs of the design document's test of [deserializeStatement],
    and a literal [null]. *)
Example deserializeStatement_examples :
  Eff.outcome (deserializeStatement (platform := Reference.platform)
                 Reference.identifier_a)
  = inl (Error "Expected a statement, got: 80")
  /\ Eff.outcome (deserializeStatement (platform := Reference.platform)
                    (SFactory "createExpressionStatement"
                       [Reference.identifier_a]))
     = inr (VNode (Reference.Built "createExpressionStatement"
                     [VNode Reference.built_a]))
  /\ Eff.outcome (deserializeStatement (platform := Reference.platform)
                    (SLiteral LNull))
     = inl (Raised
         "TypeError: Cannot read properties of undefined (reading 'kind')").
Proof. repeat split. Qed.

(** A name that is nowhere to be found, as in the design document. *)
Example deserialize_bogusThing :
  deserialize (platform := Reference.platform) (SFactory "bogusThing" [])
  = ([], inl (Error "Unknown factory method: bogusThing")).
Proof. reflexivity. Qed.

(** The inherited name on the reference platform. *)
Example deserialize_toString :
  deserialize (platform := Reference.platform) (SFactory "toString" [])
  = ([ Reference.called "toString" [] ],
     inr (VString "[object Undefined]")).
Proof. reflexivity. Qed.
End Witnesses.

(** * Further properties *)

(** ** Logs and outcomes *)

Module EffLog.
Import Eff.

Lemma log_bind {Ev X A B} (m : t Ev X A) (f : A -> t Ev X B) :
  log (bind m f)
  = log m ++ match outcome m with inr a => log (f a) | inl _ => [] end.
Proof.
  destruct m as [l [e | a]]; simpl; [now rewrite app_nil_r |].
  now destruct (f a).
Qed.

Lemma outcome_bind {Ev X A B} (m : t Ev X A) (f : A -> t Ev X B) :
  outcome (bind m f)
  = match outcome m with inr a => outcome (f a) | inl e => inl e end.
Proof.
  destruct m as [l [e | a]]; simpl; [reflexivity |]. now destruct (f a).
Qed.

Lemma bind_ext {Ev X A B} (m : t Ev X A) (f g : A -> t Ev X B) :
  (forall a, f a = g a) -> bind m f = bind m g.
Proof. intros H. destruct m as [l [e | a]]; simpl; now rewrite ?H. Qed.

Lemma surjective (Ev X A : Type) (m : t Ev X A) : m = (log m, outcome m).
Proof. now destruct m. Qed.

Section MapM.
Context {Ev X A B : Type} (f : A -> t Ev X B).

Lemma log_mapM_cons a l :
  log (mapM f (a :: l))
  = log (f a) ++ match outcome (f a) with
                 | inr _ => log (mapM f l)
                 | inl _ => []
                 end.
Proof.
  rewrite EffFacts.mapM_cons, log_bind.
  destruct (outcome (f a)); [reflexivity |].
  rewrite log_bind. destruct (outcome (mapM f l)); simpl;
    now rewrite app_nil_r.
Qed.

Lemma outcome_mapM_cons a l :
  outcome (mapM f (a :: l))
  = match outcome (f a) with
    | inl e => inl e
    | inr b => match outcome (mapM f l) with
               | inl e => inl e
               | inr bs => inr (b :: bs)
               end
    end.
Proof.
  rewrite EffFacts.mapM_cons, outcome_bind.
  destruct (outcome (f a)); [reflexivity |].
  rewrite outcome_bind. now destruct (outcome (mapM f l)).
Qed.

(** What a traversal returns holds, place for place, what the elements
    return. *)
Lemma mapM_returns_inv l bs :
  outcome (mapM f l) = inr bs ->
  Forall2 (fun a b => outcome (f a) = inr b) l bs.
Proof.
  revert bs. induction l as [| a l IH]; intros bs.
  - intros [= <-]. constructor.
  - rewrite outcome_mapM_cons.
    destruct (outcome (f a)) as [e | b] eqn:Ha; [discriminate |].
    destruct (outcome (mapM f l)) as [e | bs'] eqn:Hl; [discriminate |].
    intros [= <-]. constructor; [assumption | now apply IH].
Qed.

(** An element that throws makes the traversal throw. *)
Lemma mapM_In_throws l a e :
  In a l -> outcome (f a) = inl e -> exists e', outcome (mapM f l) = inl e'.
Proof.
  intros Hin Ha. induction l as [| a' l IH]; [destruct Hin |].
  rewrite outcome_mapM_cons.
  destruct (outcome (f a')) as [e' | b] eqn:Ha'; [now exists e' |].
  destruct Hin as [-> | Hin]; [congruence |].
  destruct (IH Hin) as [e' ->]. now exists e'.
Qed.

(** When every element returns, so does the traversal. *)
Lemma mapM_all_return l :
  Forall (fun a => exists b, outcome (f a) = inr b) l ->
  exists bs, outcome (mapM f l) = inr bs.
Proof.
  induction 1 as [| a l [b Ha] _ [bs IH]]; [now exists [] |].
  rewrite outcome_mapM_cons, Ha, IH. now exists (b :: bs).
Qed.

(** An exception of the traversal is that of one of its elements, whose
    calls are the last of the traversal. *)
Lemma mapM_throws_log l e :
  outcome (mapM f l) = inl e ->
  exists a before,
    In a l /\ outcome (f a) = inl e /\ log (mapM f l) = before ++ log (f a).
Proof.
  induction l as [| a l IH]; [discriminate |].
  rewrite outcome_mapM_cons, log_mapM_cons.
  destruct (outcome (f a)) as [e' | b] eqn:Ha.
  - intros [= <-]. exists a, []. rewrite app_nil_r.
    repeat split; [now left | assumption].
  - destruct (outcome (mapM f l)) as [e' | bs]; [| discriminate].
    intros [= <-]. destruct (IH eq_refl) as (a' & before & Hin & Ha' & Hlog).
    exists a', (log (f a) ++ before).
    repeat split; [now right | assumption |].
    now rewrite Hlog, app_assoc.
Qed.

(** An exception of the traversal is that of one of its elements. *)
Lemma mapM_outcome_throws l e :
  outcome (mapM f l) = inl e -> exists a, In a l /\ outcome (f a) = inl e.
Proof.
  induction l as [| a l IH]; [discriminate |].
  rewrite outcome_mapM_cons.
  destruct (outcome (f a)) as [e' | b] eqn:Ha.
  - intros [= <-]. exists a. split; [now left | assumption].
  - destruct (outcome (mapM f l)) as [e' | bs]; [| discriminate].
    intros [= <-]. destruct (IH eq_refl) as (a' & Hin & Ha').
    exists a'. split; [now right | assumption].
Qed.
End MapM.
End EffLog.

(** ** More on the deserializer *)

Section DeserializerMore.
Context {platform : Platform}.
Import EffFacts EffLog.

Lemma get_factoryMap_Some name factory :
  get_factoryMap name = Some factory ->
  In name factory_names \/ In name object_prototype_keys.
Proof.
  unfold get_factoryMap, object_prototype.
  destruct (In_dec string_dec name factory_names) as [Hin | Hout];
    [now left |].
  rewrite (own_factoryMap_not_In name Hout).
  destruct (existsb (String.eqb name) object_prototype_keys) eqn:E;
    [| discriminate].
  intros _. right. now apply existsb_eqb_In.
Qed.

Lemma log_apply name factory args :
  map callee (Eff.log (apply name factory args))
  = match factory with Function _ => [name] | NotCallable => [] end.
Proof. now destruct factory. Qed.

(** The log and the outcome of a factory node, by cases. *)
Lemma log_deserialize_factory name args :
  Eff.log (deserialize (SFactory name args))
  = if (name =? "__array__")%string then
      Eff.log (Eff.mapM deserialize args)
    else
      match get_factoryMap name with
      | None => []
      | Some factory =>
          Eff.log (Eff.mapM deserialize args)
            ++ match Eff.outcome (Eff.mapM deserialize args) with
               | inr values => Eff.log (apply name factory values)
               | inl _ => []
               end
      end.
Proof.
  rewrite deserialize_factory. unfold deserializeFactory.
  destruct (name =? "__array__")%string.
  - rewrite log_bind.
    destruct (Eff.outcome (Eff.mapM deserialize args)); simpl;
      now rewrite app_nil_r.
  - destruct (get_factoryMap name); [apply log_bind | reflexivity].
Qed.

Lemma outcome_deserialize_factory name args :
  Eff.outcome (deserialize (SFactory name args))
  = if (name =? "__array__")%string then
      match Eff.outcome (Eff.mapM deserialize args) with
      | inl e => inl e
      | inr elements => inr (VArray elements)
      end
    else
      match get_factoryMap name with
      | None => inl (Error ("Unknown factory method: " ++ name))
      | Some factory =>
          match Eff.outcome (Eff.mapM deserialize args) with
          | inl e => inl e
          | inr values => Eff.outcome (apply name factory values)
          end
      end.
Proof.
  rewrite deserialize_factory. unfold deserializeFactory.
  destruct (name =? "__array__")%string.
  - rewrite outcome_bind.
    now destruct (Eff.outcome (Eff.mapM deserialize args)).
  - destruct (get_factoryMap name); [apply outcome_bind | reflexivity].
Qed.

(** The traversal of the arguments, given the property for each. *)
Lemma mapM_invoked args :
  Forall (fun a =>
            (exists rest,
                invoked a
                = map callee (Eff.log (deserialize a)) ++ rest)
            /\ (forall v, Eff.outcome (deserialize a) = inr v ->
                          map callee (Eff.log (deserialize a)) = invoked a))
         args ->
  (exists rest,
      flat_map invoked args
      = map callee (Eff.log (Eff.mapM deserialize args)) ++ rest)
  /\ (forall vs, Eff.outcome (Eff.mapM deserialize args) = inr vs ->
                 map callee (Eff.log (Eff.mapM deserialize args))
                 = flat_map invoked args).
Proof.
  induction 1 as [| a args [[rest Hpre] Hall] _ [[rest' Hpre'] Hall']].
  - split; [now exists [] | reflexivity].
  - rewrite log_mapM_cons, outcome_mapM_cons. simpl flat_map.
    destruct (Eff.outcome (deserialize a)) as [e | v].
    + split; [| discriminate].
      exists (rest ++ flat_map invoked args).
      now rewrite app_nil_r, Hpre, app_assoc.
    + specialize (Hall v eq_refl). rewrite map_app, Hall. split.
      * exists rest'. now rewrite <- app_assoc, <- Hpre'.
      * destruct (Eff.outcome (Eff.mapM deserialize args)) as [e | vs'];
          [discriminate |].
        intros vs _. now rewrite (Hall' vs' eq_refl).
Qed.

(** X1: the operations a node invokes are invoked in the post-order of its
    factory calls: when [deserialize] returns, the names called are exactly
    those of the node, arguments first and left to right; when it throws,
    they are a prefix of them. *)
Theorem deserialize_invokes_in_postorder node :
  (exists rest,
      invoked node = map callee (Eff.log (deserialize node)) ++ rest)
  /\ (forall v, Eff.outcome (deserialize node) = inr v ->
                map callee (Eff.log (deserialize node)) = invoked node).
Proof.
  induction node as [value | value | name args IH | | type]
    using SerializedNode_ind';
    try rewrite deserialize_bare;
    try (split; [now exists [] | reflexivity]).
  destruct (mapM_invoked args IH) as [[rest Hpre] Hall].
  rewrite log_deserialize_factory, outcome_deserialize_factory.
  simpl invoked.
  destruct (name =? "__array__")%string.
  - rewrite app_nil_r. split; [now exists rest |].
    destruct (Eff.outcome (Eff.mapM deserialize args)) as [e | vs];
      [discriminate |].
    intros v _. now apply (Hall vs).
  - destruct (get_factoryMap name) as [factory |].
    + destruct (Eff.outcome (Eff.mapM deserialize args)) as [e | vs].
      * split; [| discriminate]. exists (rest ++ [name]).
        now rewrite app_nil_r, Hpre, app_assoc.
      * rewrite map_app, (Hall vs eq_refl), log_apply.
        destruct factory as [f |].
        -- split; [now exists [] ; rewrite app_nil_r | reflexivity].
        -- split; [now exists [name]; rewrite app_nil_r | discriminate].
    + split; [| discriminate]. now exists (flat_map invoked args ++ [name]).
Qed.

(** X2: whatever the node, every function [deserialize] calls was found
    under its name in [factoryMap] or on the prototype chain of
    [factoryMap]; in particular the array sentinel is never called. *)
Theorem deserialize_calls_only_found_names node :
  Forall (fun c =>
            (In (callee c) factory_names
             \/ In (callee c) object_prototype_keys)
            /\ callee c <> "__array__")
         (Eff.log (deserialize node)).
Proof.
  induction node as [value | value | name args IH | | type]
    using SerializedNode_ind';
    try rewrite deserialize_bare; try constructor.
  assert (Hargs : Forall (fun c =>
                    (In (callee c) factory_names
                     \/ In (callee c) object_prototype_keys)
                    /\ callee c <> "__array__")
                    (Eff.log (Eff.mapM deserialize args))).
  { induction IH as [| a args Ha _ IHargs]; [constructor |].
    rewrite log_mapM_cons. apply Forall_app. split; [exact Ha |].
    destruct (Eff.outcome (deserialize a)); [constructor | exact IHargs]. }
  rewrite log_deserialize_factory.
  destruct (String.eqb_spec name "__array__") as [-> | Hname];
    [exact Hargs |].
  destruct (get_factoryMap name) as [factory |] eqn:Hget; [| constructor].
  apply Forall_app. split; [exact Hargs |].
  destruct (Eff.outcome (Eff.mapM deserialize args)) as [e | vs];
    [constructor |].
  destruct factory as [f |]; simpl; constructor; [| constructor].
  simpl. split; [exact (get_factoryMap_Some _ _ Hget) | exact Hname].
Qed.

(** X3: there is no partial result: when the deserialization of a node
    that lies anywhere inside another throws, so does the deserialization
    of that other node. *)
Theorem deserialize_subnode_throws x node :
  subnode x node ->
  (exists e, Eff.outcome (deserialize x) = inl e) ->
  exists e, Eff.outcome (deserialize node) = inl e.
Proof.
  intros Hsub Hx. induction Hsub as [| name args a Hin _ IH]; [exact Hx |].
  destruct IH as [e Ha].
  destruct (mapM_In_throws deserialize args a e Hin Ha) as [e' Hargs].
  rewrite outcome_deserialize_factory, Hargs.
  destruct (name =? "__array__")%string; [now exists e' |].
  destruct (get_factoryMap name); eauto.
Qed.

Lemma well_formed_factory name args :
  well_formed (SFactory name args)
  = ((name =? "__array__")%string
     || existsb (String.eqb name) factory_names)
    && forallb well_formed args.
Proof. reflexivity. Qed.

(** When a well-formed node throws, the last call in the log is the call
    of a [ts.factory] function of the table, and the exception is what
    that call threw. *)
Lemma well_formed_throws_in_last_call node :
  well_formed node = true ->
  forall e, Eff.outcome (deserialize node) = inl e ->
  exists earlier c x,
    Eff.log (deserialize node) = earlier ++ [c]
    /\ In (callee c) factory_names
    /\ ts_factory (callee c) (arguments c) = inl x
    /\ e = Raised x.
Proof.
  induction node as [value | value | name args IH | | type]
    using SerializedNode_ind'; intros Hwf e; try discriminate.
  rewrite well_formed_factory in Hwf.
  apply andb_prop in Hwf as [Hname Hargs].
  rewrite forallb_forall in Hargs. rewrite Forall_forall in IH.
  assert (Hthrow : Eff.outcome (Eff.mapM deserialize args) = inl e ->
                   exists earlier c x,
                     Eff.log (Eff.mapM deserialize args) = earlier ++ [c]
                     /\ In (callee c) factory_names
                     /\ ts_factory (callee c) (arguments c) = inl x
                     /\ e = Raised x).
  { intros H. apply mapM_throws_log in H as (a & before & Hin & Ha & Hlog).
    destruct (IH a Hin (Hargs a Hin) e Ha) as (earlier & c & x & Hc & H').
    exists (before ++ earlier), c, x. split; [| exact H'].
    now rewrite Hlog, Hc, app_assoc. }
  rewrite outcome_deserialize_factory, log_deserialize_factory.
  destruct (name =? "__array__")%string eqn:Harray.
  - destruct (Eff.outcome (Eff.mapM deserialize args)) eqn:E;
      [| discriminate].
    intros [= ->]. now apply Hthrow.
  - cbn [orb] in Hname. apply existsb_eqb_In in Hname.
    rewrite (get_factoryMap_own name Hname).
    destruct (Eff.outcome (Eff.mapM deserialize args)) as [e' | vs] eqn:E.
    + intros [= ->]. rewrite app_nil_r. now apply Hthrow.
    + unfold apply, Eff.call, Eff.outcome, Eff.log, operation. simpl.
      destruct (ts_factory name vs) as [x | n] eqn:Hcall; [| discriminate].
      intros [= <-].
      exists (fst (Eff.mapM deserialize args)),
             {| callee := name; arguments := vs |}, x.
      now repeat split.
Qed.

(** X4: a node that has the shape of the format throughout, and all of
    whose factory calls name the array sentinel or a key of [factoryMap],
    can only fail inside an operation: when it throws, the last call made
    is the call of a [ts.factory] function of the table, and the exception
    is the one that call threw. *)
Theorem deserialize_well_formed_throws node :
  well_formed node = true ->
  forall e, Eff.outcome (deserialize node) = inl e ->
  exists earlier c x,
    Eff.log (deserialize node) = earlier ++ [c]
    /\ In (callee c) factory_names
    /\ ts_factory (callee c) (arguments c) = inl x
    /\ e = Raised x.
Proof. exact (well_formed_throws_in_last_call node). Qed.

(** X5: such a node deserializes to a value whenever every operation it
    invokes returns. *)
Theorem deserialize_well_formed_returns node :
  well_formed node = true ->
  Forall (fun c => exists n, ts_factory (callee c) (arguments c) = inr n)
         (Eff.log (deserialize node)) ->
  exists v, Eff.outcome (deserialize node) = inr v.
Proof.
  intros Hwf Hcalls.
  destruct (Eff.outcome (deserialize node)) as [e | v] eqn:E;
    [| now exists v].
  destruct (well_formed_throws_in_last_call node Hwf e E)
    as (earlier & c & x & Hlog & _ & Hthrows & _).
  rewrite Hlog in Hcalls. apply Forall_app in Hcalls as [_ Hc].
  apply Forall_inv in Hc as [n Hn]. congruence.
Qed.

(** Whether one of the four strings of the guards is the given type. *)
Lemma no_guard_holds node :
  (isLiteral node || isUndefined node || isNumber node || isFactory node)%bool
  = false ->
  exists type,
    node = SBare type
    /\ (isLiteral (SBare type) || isUndefined (SBare type)
        || isNumber (SBare type))%bool = false
    /\ isFactory (SBare type) = false.
Proof.
  destruct node as [value | value | name args | | type]; try discriminate.
  intros H. apply orb_false_elim in H as [H Hfactory].
  exists type. now repeat split.
Qed.

(** The error of an unknown type names a type that no guard knows. *)
Lemma unknown_type_thrown node :
  forall l type,
    deserialize node = (l, inl (Error ("Unknown node type: " ++ type))) ->
    ((type =? "literal") || (type =? "undefined") || (type =? "number")
     || (type =? "factory"))%string = false.
Proof.
  induction node as [value | value | name args IH | | bare]
    using SerializedNode_ind'; intros l type; try discriminate.
  - rewrite deserialize_factory. unfold deserializeFactory.
    rewrite Forall_forall in IH.
    assert (Hargs : forall lg,
               Eff.mapM deserialize args
               = (lg, inl (Error ("Unknown node type: " ++ type))) ->
               ((type =? "literal") || (type =? "undefined")
                || (type =? "number") || (type =? "factory"))%string
               = false).
    { intros lg H. apply mapM_throws_inv in H as (a & la & Hin & Ha).
      exact (IH a Hin la type Ha). }
    destruct (name =? "__array__")%string.
    + intros H. apply bind_inv in H
        as [(e' & H & [= <-]) | (l1 & vs & l2 & _ & H & _)];
        [eauto | discriminate].
    + destruct (get_factoryMap name) as [[f |] |].
      * intros H. apply bind_inv in H
          as [(e' & H & [= <-]) | (l1 & vs & l2 & _ & H & _)]; [eauto |].
        unfold apply, Eff.call in H. destruct (f vs); discriminate.
      * intros H. apply bind_inv in H
          as [(e' & H & [= <-]) | (l1 & vs & l2 & _ & H & _)];
          [eauto | discriminate].
      * simpl. discriminate.
  - rewrite deserialize_bare.
    destruct (_ || _)%bool eqn:E; [discriminate |].
    destruct (isFactory (SBare bare)) eqn:F; [simpl; discriminate |].
    simpl. intros [= Heq]. subst.
    unfold isLiteral, isUndefined, isNumber, isFactory, node_type in E, F.
    now rewrite E, F.
Qed.

(** X25: the four type guards compare [node.type] with four different
    strings, so at most one of them holds of a node; and [deserialize]
    throws the error that names the node's own type as unknown exactly when
    none of them holds. *)
Theorem guards_exclusive node :
  Nat.b2n (isLiteral node) + Nat.b2n (isUndefined node)
    + Nat.b2n (isNumber node) + Nat.b2n (isFactory node) <= 1
  /\ ((isLiteral node || isUndefined node || isNumber node
       || isFactory node)%bool = false
      <-> exists l,
          deserialize node
          = (l, inl (Error ("Unknown node type: " ++ node_type node)))).
Proof.
  split.
  - unfold isLiteral, isUndefined, isNumber, isFactory.
    destruct (String.eqb_spec (node_type node) "literal") as [-> | _];
      [repeat constructor |].
    destruct (String.eqb_spec (node_type node) "undefined") as [-> | _];
      [repeat constructor |].
    destruct (String.eqb_spec (node_type node) "number") as [-> | _];
      [repeat constructor |].
    destruct (node_type node =? "factory")%string; repeat constructor.
  - split.
    + intros H. destruct (no_guard_holds node H) as (type & -> & E & F).
      exists []. rewrite deserialize_bare, E, F. reflexivity.
    + intros [l H]. apply unknown_type_thrown in H.
      exact H.
Qed.

End DeserializerMore.

(** ** Arrays and the typed projections *)

Section ProjectionsMore.
Context {platform : Platform}.
Import EffFacts EffLog.

(** X6: whenever the array sentinel returns, it returns a sequence with as
    many elements as the node has arguments, and each element is what the
    argument at its place deserializes to. *)
Theorem deserialize_array_returns_inv args v :
  Eff.outcome (deserialize (SFactory "__array__" args)) = inr v ->
  exists elements,
    v = VArray elements
    /\ List.length elements = List.length args
    /\ Forall2 (fun a element => Eff.outcome (deserialize a) = inr element)
               args elements.
Proof.
  rewrite outcome_deserialize_factory.
  replace ("__array__" =? "__array__")%string with true by reflexivity.
  destruct (Eff.outcome (Eff.mapM deserialize args)) as [e | elements] eqn:E;
    [discriminate |].
  intros [= <-]. exists elements.
  pose proof (mapM_returns_inv deserialize args elements E) as H.
  split; [reflexivity |]. split; [| exact H].
  symmetry. exact (Forall2_length H).
Qed.

Lemma log_kind_of (v : Value Node) : Eff.log (kind_of v) = [].
Proof. now destruct v. Qed.

(** X7: narrowing calls no operation: the three projections make exactly
    the calls [deserialize] makes, whether they return or throw. *)
Theorem projections_call_nothing_more node :
  Eff.log (deserializeStatement node) = Eff.log (deserialize node)
  /\ Eff.log (deserializeExpression node) = Eff.log (deserialize node)
  /\ Eff.log (deserializeDeclaration node) = Eff.log (deserialize node).
Proof.
  unfold deserializeStatement, deserializeExpression, deserializeDeclaration.
  rewrite !log_bind.
  destruct (Eff.outcome (deserialize node)) as [e | v];
    [now rewrite !app_nil_r |].
  repeat split.
  - rewrite log_bind. unfold Eff.lift at 1 2. simpl.
    destruct (ts_isStatement v) as [e | [|]]; simpl;
      rewrite ?log_bind, ?log_kind_of; try now rewrite app_nil_r.
    destruct (Eff.outcome (kind_of v)); simpl; now rewrite app_nil_r.
  - rewrite log_bind. unfold Eff.lift at 1 2. simpl.
    destruct (ts_isExpression v) as [e | [|]]; simpl;
      rewrite ?log_bind, ?log_kind_of; try now rewrite app_nil_r.
    destruct (Eff.outcome (kind_of v)); simpl; now rewrite app_nil_r.
  - simpl. now rewrite app_nil_r.
Qed.

Lemma outcome_deserializeStatement node :
  Eff.outcome (deserializeStatement node)
  = match Eff.outcome (deserialize node) with
    | inl e => inl e
    | inr v =>
        match ts_isStatement v with
        | inl e => inl (Raised e)
        | inr true => inr v
        | inr false =>
            match Eff.outcome (kind_of v) with
            | inl e => inl e
            | inr k => inl (Error ("Expected a statement, got: " ++ k))
            end
        end
    end.
Proof.
  unfold deserializeStatement. rewrite outcome_bind.
  destruct (Eff.outcome (deserialize node)) as [e | v]; [reflexivity |].
  rewrite outcome_bind. unfold Eff.lift at 1. simpl.
  destruct (ts_isStatement v) as [e | [|]]; try reflexivity.
  simpl. rewrite outcome_bind. now destruct (Eff.outcome (kind_of v)).
Qed.

Lemma outcome_deserializeExpression node :
  Eff.outcome (deserializeExpression node)
  = match Eff.outcome (deserialize node) with
    | inl e => inl e
    | inr v =>
        match ts_isExpression v with
        | inl e => inl (Raised e)
        | inr true => inr v
        | inr false =>
            match Eff.outcome (kind_of v) with
            | inl e => inl e
            | inr k => inl (Error ("Expected an expression, got: " ++ k))
            end
        end
    end.
Proof.
  unfold deserializeExpression. rewrite outcome_bind.
  destruct (Eff.outcome (deserialize node)) as [e | v]; [reflexivity |].
  rewrite outcome_bind. unfold Eff.lift at 1. simpl.
  destruct (ts_isExpression v) as [e | [|]]; try reflexivity.
  simpl. rewrite outcome_bind. now destruct (Eff.outcome (kind_of v)).
Qed.

(** X8: what [deserializeStatement] returns is what [deserialize] returned,
    and [ts.isStatement] accepted it; likewise [deserializeExpression] and
    [ts.isExpression]. *)
Theorem projections_return_accepted node v :
  (Eff.outcome (deserializeStatement node) = inr v ->
   Eff.outcome (deserialize node) = inr v /\ ts_isStatement v = inr true)
  /\ (Eff.outcome (deserializeExpression node) = inr v ->
      Eff.outcome (deserialize node) = inr v
      /\ ts_isExpression v = inr true).
Proof.
  rewrite outcome_deserializeStatement, outcome_deserializeExpression.
  destruct (Eff.outcome (deserialize node)) as [e | w];
    [split; discriminate |].
  split.
  - destruct (ts_isStatement w) as [e | [|]] eqn:E; try discriminate.
    + intros [= <-]. now split.
    + destruct (Eff.outcome (kind_of w)); discriminate.
  - destruct (ts_isExpression w) as [e | [|]] eqn:E; try discriminate.
    + intros [= <-]. now split.
    + destruct (Eff.outcome (kind_of w)); discriminate.
Qed.

(** X9: when [deserialize] gives an object that [ts.isExpression] rejects,
    [deserializeExpression] throws the error that names the number of the
    object's kind, after the calls [deserialize] made. *)
Theorem deserializeExpression_rejects node l n k :
  deserialize node = (l, inr (VNode n)) ->
  ts_isExpression (VNode n) = inr false ->
  kind n = Some k ->
  deserializeExpression node
  = (l, inl (Error ("Expected an expression, got: " ++ show_N k))).
Proof.
  intros Hv Hrejects Hkind. unfold deserializeExpression.
  rewrite (bind_returns _ _ _ _ Hv), Hrejects. simpl. rewrite Hkind. simpl.
  now rewrite app_nil_r.
Qed.

(** X10: a value that is not an object and is neither [null] nor
    [undefined] (a string, a number, a boolean, an array) has no kind: if
    [ts.isStatement] rejects it the error reads [got: undefined]. *)
Theorem deserializeStatement_rejects_primitive node l v :
  deserialize node = (l, inr v) ->
  ts_isStatement v = inr false ->
  match v with
  | VString _ | VNumber _ | VBool _ | VArray _ => True
  | _ => False
  end ->
  deserializeStatement node
  = (l, inl (Error "Expected a statement, got: undefined")).
Proof.
  intros Hv Hrejects Hprimitive. unfold deserializeStatement.
  rewrite (bind_returns _ _ _ _ Hv), Hrejects.
  destruct v; try contradiction; simpl; now rewrite app_nil_r.
Qed.

(** X11: when [deserializeStatements] returns, it returns one statement
    for each node, in the order of the nodes: the element at each place is
    what [deserializeStatement] returns for the node at that place, and
    [ts.isStatement] accepted it. *)
Theorem deserializeStatements_returns_inv nodes statements :
  Eff.outcome (deserializeStatements nodes) = inr statements ->
  List.length statements = List.length nodes
  /\ Forall2 (fun node statement =>
                Eff.outcome (deserializeStatement node) = inr statement)
             nodes statements
  /\ Forall (fun statement => ts_isStatement statement = inr true)
            statements.
Proof.
  intros H. apply mapM_returns_inv in H.
  split; [symmetry; exact (Forall2_length H) |]. split; [exact H |].
  induction H as [| node statement nodes statements Hnode _ IH];
    constructor; [| exact IH].
  rewrite outcome_deserializeStatement in Hnode.
  destruct (Eff.outcome (deserialize node)) as [e | w]; [discriminate |].
  destruct (ts_isStatement w) as [e | [|]] eqn:E; try discriminate.
  - now injection Hnode as <-.
  - destruct (Eff.outcome (kind_of w)); discriminate.
Qed.

End ProjectionsMore.

(** ** More on the printer *)

Section PrinterMore.
Context {platform : Platform}.
Import EffFacts EffLog.

(** With no fixed output and no message, or no result at all, the text
    comes back as it went in. *)
Lemma lintText_clean text options result :
  eslint_lintText (createLinter options) text = inr result ->
  match result with
  | [] => True
  | r :: _ => output r = None /\ messages r = []
  end ->
  lintText text options
  = ([ {| rules := createLinter options; linted := text |} ], inr text).
Proof.
  intros Hlint Hclean. unfold lintText, Eff.call. rewrite Hlint.
  destruct result as [| r rest]; [reflexivity |].
  destruct Hclean as [Hout Hmsg]. simpl. now rewrite Hout, Hmsg.
Qed.

(** [lintText] reads its options through [createLinter] only. *)
Lemma lintText_ext text options options' :
  createLinter options = createLinter options' ->
  lintText text options = lintText text options'.
Proof. intros H. unfold lintText. now rewrite H. Qed.

Lemma guarded_lint text options :
  text <> "" ->
  (text' <- (([], inr text) : Eff.t Lint LibExn string) ;;
   if is_empty text' then Eff.ret "" else lintText text' options)
  = lintText text options.
Proof.
  intros Hne. unfold Eff.bind.
  destruct (is_empty text) eqn:E; [now apply is_empty_spec in E |].
  now destruct (lintText text options).
Qed.

(** The renderings of the nodes, when the printer returns for each. *)
Lemma mapM_printNode printer nodes parts :
  Forall2 (fun node part => ts_printNode printer node = inr part)
          nodes parts ->
  Eff.mapM (Ev := Lint) (fun node => Eff.lift (ts_printNode printer node))
           nodes
  = ([], inr parts).
Proof.
  induction 1 as [| node part nodes parts Hnode _ IH]; [reflexivity |].
  rewrite mapM_cons, IH. unfold Eff.lift. now rewrite Hnode.
Qed.

(** X13: printing is rendering, then linting: when the TypeScript printer
    returns a text that is not empty, each print operation is [lintText]
    of that text; for [printNodes] the text is the renderings of the nodes,
    each made on its own, joined by single line feeds. *)
Theorem print_is_lintText_of_rendering options text :
  text <> "" ->
  (forall node,
      ts_printNode (createPrinter options) node = inr text ->
      printNode node options = lintText text options)
  /\ (forall nodes parts,
        Forall2 (fun node part =>
                   ts_printNode (createPrinter options) node = inr part)
                nodes parts ->
        String.concat LF parts = text ->
        printNodes nodes options = lintText text options)
  /\ (forall statements,
        ts_printFile (createPrinter options) statements = inr text ->
        printFile statements options = lintText text options)
  /\ (forall nodes,
        ts_printList (createPrinter options) nodes = inr text ->
        printNodeList nodes options = lintText text options).
Proof.
  intros Hne. repeat split.
  - intros node Hraw. unfold printNode, Eff.lift. rewrite Hraw.
    now apply guarded_lint.
  - intros nodes parts Hraw Hjoin. unfold printNodes.
    rewrite (mapM_printNode _ _ _ Hraw).
    unfold Eff.bind. rewrite Hjoin.
    destruct (is_empty text) eqn:E; [now apply is_empty_spec in E |].
    now destruct (lintText text options).
  - intros statements Hraw. unfold printFile, Eff.lift. rewrite Hraw.
    now apply guarded_lint.
  - intros nodes Hraw. unfold printNodeList, Eff.lift. rewrite Hraw.
    unfold Eff.bind. now destruct (lintText text options).
Qed.

(** X14: printing one node with [printNodes] is printing it with
    [printNode]. *)
Theorem printNodes_singleton node options :
  printNodes [node] options = printNode node options.
Proof.
  unfold printNodes, printNode. rewrite mapM_cons, mapM_nil.
  unfold Eff.lift.
  destruct (ts_printNode (createPrinter options) node) as [e | text];
    [reflexivity |].
  simpl. destruct (is_empty text); [reflexivity |].
  now destruct (lintText text options).
Qed.

(** X15: the options matter through the linter's rules and the printer's
    [removeComments] only: two option records that agree on both print
    alike, so an option left out prints as its default written out. *)
Theorem print_options_ext options options' :
  createLinter options = createLinter options' ->
  createPrinter options = createPrinter options' ->
  (forall node, printNode node options = printNode node options')
  /\ (forall nodes, printNodes nodes options = printNodes nodes options')
  /\ (forall statements,
        printFile statements options = printFile statements options')
  /\ (forall nodes,
        printNodeList nodes options = printNodeList nodes options').
Proof.
  intros Hlinter Hprinter.
  assert (Hlint : forall text,
             lintText text options = lintText text options')
    by (intros text; now apply lintText_ext).
  unfold printNode, printNodes, printFile, printNodeList.
  rewrite Hprinter.
  repeat split; intros; apply bind_ext; intros;
    now rewrite ?Hlint.
Qed.

(** The calls of the checker made by an operation that renders without
    calling it and then lints what is not empty. *)
Lemma guarded_log (m : Eff.t Lint LibExn string) options :
  Eff.log m = [] ->
  Eff.log (text <- m ;;
           if is_empty text then Eff.ret "" else lintText text options)
  = match Eff.outcome m with
    | inr text =>
        if is_empty text then []
        else [ {| rules := createLinter options; linted := text |} ]
    | inl _ => []
    end.
Proof.
  intros Hm. rewrite log_bind, Hm.
  destruct (Eff.outcome m) as [e | text]; [reflexivity |].
  destruct (is_empty text); [reflexivity | apply lintText_log].
Qed.

Lemma log_mapM_lift {A B} (f : A -> LibExn + B) l :
  Eff.log (Eff.mapM (Ev := Lint) (fun a => Eff.lift (f a)) l) = [].
Proof.
  induction l as [| a l IH]; [reflexivity |].
  rewrite log_mapM_cons, IH. unfold Eff.lift. now destruct (f a).
Qed.

Lemma lints_once_nonempty_nil options : lints_once_nonempty options [].
Proof. split; [apply le_S, le_n | constructor]. Qed.

Lemma lints_once_nonempty_guard options text :
  lints_once_nonempty options
    (if is_empty text then []
     else [ {| rules := createLinter options; linted := text |} ]).
Proof.
  destruct (is_empty text) eqn:E; [apply lints_once_nonempty_nil |].
  split; [apply le_n |]. constructor; [| constructor]. simpl.
  split; [| reflexivity]. intros ->. discriminate.
Qed.

(** X16: [printNode], [printNodes] and [printFile] call the checker at
    most once, with the rules of their options, and never on an empty
    text. *)
Theorem guarded_prints_lint_once_nonempty options :
  (forall node,
      lints_once_nonempty options (Eff.log (printNode node options)))
  /\ (forall nodes,
        lints_once_nonempty options (Eff.log (printNodes nodes options)))
  /\ (forall statements,
        lints_once_nonempty options
          (Eff.log (printFile statements options))).
Proof.
  split; [| split].
  - intros node. unfold printNode. rewrite guarded_log by reflexivity.
    unfold Eff.lift, Eff.outcome. simpl.
    destruct (ts_printNode (createPrinter options) node);
      [apply lints_once_nonempty_nil | apply lints_once_nonempty_guard].
  - intros nodes. unfold printNodes. rewrite log_bind, log_mapM_lift.
    cbn [app].
    destruct (Eff.outcome (Eff.mapM _ nodes)) as [e | parts];
      [apply lints_once_nonempty_nil |].
    pose proof (lints_once_nonempty_guard options (String.concat LF parts))
      as H.
    destruct (is_empty (String.concat LF parts)); [exact H |].
    now rewrite lintText_log.
  - intros statements. unfold printFile.
    rewrite guarded_log by reflexivity.
    unfold Eff.lift, Eff.outcome. simpl.
    destruct (ts_printFile (createPrinter options) statements);
      [apply lints_once_nonempty_nil | apply lints_once_nonempty_guard].
Qed.

(** X17: a rendering the checker has nothing to say about is returned
    byte for byte, empty or not, by [printNode], [printFile] and
    [printNodeList]. *)
Theorem print_returns_clean_rendering options text result :
  eslint_lintText (createLinter options) text = inr result ->
  match result with
  | [] => True
  | r :: _ => output r = None /\ messages r = []
  end ->
  (forall node,
      ts_printNode (createPrinter options) node = inr text ->
      Eff.outcome (printNode node options) = inr text)
  /\ (forall statements,
        ts_printFile (createPrinter options) statements = inr text ->
        Eff.outcome (printFile statements options) = inr text)
  /\ (forall nodes,
        ts_printList (createPrinter options) nodes = inr text ->
        Eff.outcome (printNodeList nodes options) = inr text).
Proof.
  intros Hlint Hclean.
  pose proof (lintText_clean text options result Hlint Hclean) as H.
  repeat split.
  - intros node Hraw. unfold printNode, Eff.lift. rewrite Hraw.
    unfold Eff.bind.
    destruct (is_empty text) eqn:E;
      [apply is_empty_spec in E; now subst | now rewrite H].
  - intros statements Hraw. unfold printFile, Eff.lift. rewrite Hraw.
    unfold Eff.bind.
    destruct (is_empty text) eqn:E;
      [apply is_empty_spec in E; now subst | now rewrite H].
  - intros nodes Hraw. unfold printNodeList, Eff.lift. rewrite Hraw.
    unfold Eff.bind. now rewrite H.
Qed.

(** X18: when the TypeScript printer throws, the exception is the outcome
    and the checker is not called; for [printNodes] it is enough that the
    rendering of one of the nodes throws. *)
Theorem print_rendering_throws options :
  (forall node e,
      ts_printNode (createPrinter options) node = inl e ->
      printNode node options = ([], inl (Raised e)))
  /\ (forall statements e,
        ts_printFile (createPrinter options) statements = inl e ->
        printFile statements options = ([], inl (Raised e)))
  /\ (forall nodes e,
        ts_printList (createPrinter options) nodes = inl e ->
        printNodeList nodes options = ([], inl (Raised e)))
  /\ (forall nodes node e,
        In node nodes ->
        ts_printNode (createPrinter options) node = inl e ->
        exists e', printNodes nodes options = ([], inl (Raised e'))).
Proof.
  repeat split.
  - intros node e H. unfold printNode, Eff.lift. now rewrite H.
  - intros statements e H. unfold printFile, Eff.lift. now rewrite H.
  - intros nodes e H. unfold printNodeList, Eff.lift. now rewrite H.
  - intros nodes node e Hin H. unfold printNodes.
    set (render := fun node : Node =>
                     Eff.lift (Ev := Lint)
                       (ts_printNode (createPrinter options) node)).
    destruct (mapM_In_throws render nodes node (Raised e) Hin) as [e' He'].
    { unfold render, Eff.lift. now rewrite H. }
    destruct (mapM_outcome_throws render nodes e' He') as (n & _ & Hn).
    assert (exists x, e' = Raised x) as [x ->].
    { unfold render, Eff.lift, Eff.outcome in Hn. simpl in Hn.
      destruct (ts_printNode (createPrinter options) n) as [x |];
        [| discriminate].
      injection Hn as <-. now exists x. }
    exists x. rewrite (surjective _ _ _ (Eff.mapM render nodes)).
    rewrite He'. unfold render at 1. now rewrite log_mapM_lift.
Qed.

End PrinterMore.

(** ** The command line *)

Section CliFacts.
Context {host : Host}.

(** The cases of a run of [main], with what decided each. *)
Ltac run_cases :=
  unfold main, readStdin, ensureDir, report, printHelp;
  destruct parseArgs
    as [[message |] | [[[| c out] |] help version]] eqn:Hargs;
  cbn [cli_version cli_help cli_output];
  try match goal with
      | |- context [set ?v] => destruct (set v) eqn:Hversion
      end;
  try match goal with
      | |- context [set ?h] => destruct (set h) eqn:Hhelp
      end;
  try match goal with
      | |- context [stdin_isTTY] => destruct stdin_isTTY eqn:Htty
      end;
  try match goal with
      | |- context [stdin_data] =>
          destruct stdin_data as [[message |] | input] eqn:Hdata
      end;
  try match goal with
      | |- context [is_empty (trim ?i)] =>
          destruct (is_empty (trim i)) eqn:Hblank
      end;
  try match goal with
      | |- context [JSON_parse ?i] =>
          destruct (JSON_parse i) as [parsed |] eqn:Hparse
      end;
  try match goal with
      | |- context [toTypeScriptFile ?n] =>
          let given := fresh "given" in
          set (given := n) in *;
          destruct (toTypeScriptFile given) as [[message |] | code]
            eqn:Hcode;
          subst given
      end;
  try match goal with
      | |- context [dirname ?p] =>
          destruct (negb (is_empty (dirname p))
                    && negb (dirname p =? ".")%string) eqn:Hdir
      end;
  try match goal with
      | |- context [mkdirSync ?d] =>
          destruct (mkdirSync d) as [[message |] |] eqn:Hmkdir
      end;
  try match goal with
      | |- context [writeFileSync ?p ?c] =>
          destruct (writeFileSync p c) as [[message |] |] eqn:Hwrite
      end;
  cbn [app last].

(** X19: the process ends with status 0 or 1; its status is 1 exactly
    when it has written a line to the error stream. *)
Theorem main_status_and_error_stream :
  (exit_status main = 0 \/ exit_status main = 1)
  /\ (exit_status main = 1 <-> exists text, In (ErrorLog text) main).
Proof.
  unfold exit_status. run_cases; (split; [auto |]); split.
  all: first
         [ discriminate
         | reflexivity
         | intros _; eexists; cbn [In];
           repeat first [left; reflexivity | right]
         | intros [text H]; cbn [In] in H;
           repeat (destruct H as [H | H]; try discriminate H);
           contradiction ].
Qed.

(** The test of [ensureDir]: a directory that is neither the empty string
    nor a single dot. *)
Lemma mkdir_guard d :
  negb (is_empty d) && negb (d =? ".")%string = true -> d <> "" /\ d <> ".".
Proof.
  intros H. apply andb_prop in H as [H1 H2].
  apply negb_true_iff in H1, H2. split.
  - intros ->. discriminate.
  - now apply String.eqb_neq.
Qed.

Ltac in_run H :=
  cbn [In] in H;
  repeat (destruct H as [H | H]; try discriminate H);
  try contradiction.

(** X20: standard input is read exactly when the arguments parse, ask
    neither for the version nor for the help, name an output file that is
    not the empty string, and standard input is not a terminal. *)
Theorem main_reads_stdin_iff :
  In ReadStdin main
  <-> exists options c out,
      parseArgs = inr options
      /\ set (cli_version options) = false
      /\ set (cli_help options) = false
      /\ cli_output options = Some (String c out)
      /\ stdin_isTTY = false.
Proof.
  run_cases; split;
    first
      [ intros H; in_run H; fail
      | intros (options & c' & out' & [= <-] & Hv & Hh & Ho & Ht);
        cbn [cli_version cli_help cli_output] in Hv, Hh, Ho; congruence
      | intros _; eexists _, _, _; repeat split; eassumption
      | intros _; cbn [In]; auto ].
Qed.

(** X21: whatever [toTypeScriptFile] is called with is the parsed standard
    input, which was not blank: the elements of an array, or the single
    value that is not an array as the one node of a list. *)
Theorem main_generates_from_stdin nodes :
  In (Generate nodes) main ->
  exists input parsed,
    stdin_isTTY = false
    /\ stdin_data = inr input
    /\ is_empty (trim input) = false
    /\ JSON_parse input = Some parsed
    /\ nodes = match parsed with
               | JArray elements => elements
               | _ => [parsed]
               end.
Proof.
  run_cases; intros H; in_run H;
    injection H as <-; exists input, parsed; now repeat split.
Qed.

(** X22: a file is written only at the resolved output path and only with
    the code that [toTypeScriptFile] returned for the parsed input. *)
Theorem main_writes_generated_code path content :
  In (WriteFile path content) main ->
  exists options output input parsed,
    parseArgs = inr options
    /\ cli_output options = Some output
    /\ path = resolve output
    /\ stdin_data = inr input
    /\ JSON_parse input = Some parsed
    /\ toTypeScriptFile match parsed with
                        | JArray elements => elements
                        | _ => [parsed]
                        end
       = inr content.
Proof.
  run_cases; intros H; in_run H;
    injection H as <- <-;
    eexists _, _, input, parsed; now repeat split.
Qed.

(** X23: a directory is made only for the directory of the resolved
    output path, and only when [dirname] gives neither the empty string
    nor a single dot. *)
Theorem main_makes_directory dir :
  In (Mkdir dir) main ->
  dir <> "" /\ dir <> "."
  /\ exists options output,
      parseArgs = inr options
      /\ cli_output options = Some output
      /\ dir = dirname (resolve output).
Proof.
  run_cases; intros H; in_run H;
    injection H as <-;
    (destruct (mkdir_guard _ Hdir) as [H1 H2];
     refine (conj H1 (conj H2 _));
     eexists _, _; now repeat split).
Qed.

(** X24: the line that reports the generated file is written exactly when
    [writeFileSync] was called and returned. *)
Theorem main_reports_file_iff path :
  In (Log ("Generated: " ++ path)) main
  <-> exists content,
      In (WriteFile path content) main
      /\ writeFileSync path content = None.
Proof.
  run_cases; split;
    first
      [ intros H; in_run H;
        first [ injection H as <-; eexists; split; [cbn [In]; auto |];
                assumption
              | vm_compute in H; discriminate H ]
      | intros (content & H & Hw); in_run H;
        first [ injection H as <- <-; cbn [In]; auto 6; congruence
              | congruence ] ].
Qed.

End CliFacts.

(** ** The further properties at work *)

Section FurtherWitnesses.
Import Samples.

Lemma deserialize_subnode_throws_witness :
  subnode bogus around_bogus
  /\ (exists e,
        Eff.outcome (deserialize (platform := Reference.platform) bogus)
        = inl e)
  /\ exists e,
      Eff.outcome (deserialize (platform := Reference.platform) around_bogus)
      = inl e.
Proof.
  assert (Hsub : subnode bogus around_bogus).
  { eapply subnode_arg; [now left |].
    eapply subnode_arg; [now left | constructor]. }
  assert (Hx : exists e,
             Eff.outcome (deserialize (platform := Reference.platform) bogus)
             = inl e) by (eexists; reflexivity).
  exact (conj Hsub (conj Hx (deserialize_subnode_throws
                               (platform := Reference.platform)
                               bogus around_bogus Hsub Hx))).
Defined.

Lemma deserialize_well_formed_throws_witness :
  well_formed identifier_none = true
  /\ Eff.outcome (deserialize (platform := ReferenceStrict.platform)
                    identifier_none)
     = inl (Raised "Debug Failure. False expression.")
  /\ exists earlier c x,
      Eff.log (deserialize (platform := ReferenceStrict.platform)
                 identifier_none)
      = earlier ++ [c]
      /\ In (callee c) factory_names
      /\ ReferenceStrict.factory (callee c) (arguments c) = inl x
      /\ Raised "Debug Failure. False expression." = Raised x.
Proof.
  refine (conj eq_refl (conj eq_refl _)).
  exact (deserialize_well_formed_throws
           (platform := ReferenceStrict.platform)
           identifier_none eq_refl _ eq_refl).
Defined.

Lemma deserialize_well_formed_returns_witness :
  well_formed statement_a = true
  /\ Forall (fun c =>
               exists n,
                 ts_factory (Platform := Reference.platform)
                   (callee c) (arguments c) = inr n)
            (Eff.log (deserialize (platform := Reference.platform)
                        statement_a))
  /\ exists v,
      Eff.outcome (deserialize (platform := Reference.platform) statement_a)
      = inr v.
Proof.
  assert (Hcalls : Forall (fun c =>
                     exists n,
                       ts_factory (Platform := Reference.platform)
                         (callee c) (arguments c) = inr n)
                     (Eff.log (deserialize (platform := Reference.platform)
                                 statement_a)))
    by (repeat constructor; eexists; reflexivity).
  exact (conj eq_refl
           (conj Hcalls
              (deserialize_well_formed_returns
                 (platform := Reference.platform)
                 statement_a eq_refl Hcalls))).
Defined.

Lemma deserialize_array_returns_inv_witness :
  Eff.outcome (deserialize (platform := Reference.platform) pair)
  = inr (VArray [VNode Reference.built_a; VNull])
  /\ exists elements,
      VArray [VNode Reference.built_a; VNull] = VArray elements
      /\ List.length elements = 2
      /\ Forall2 (fun a element =>
                    Eff.outcome (deserialize (platform := Reference.platform) a)
                    = inr element)
                 [Reference.identifier_a; SLiteral LNull] elements.
Proof.
  split; [reflexivity |].
  exact (deserialize_array_returns_inv (platform := Reference.platform)
           [Reference.identifier_a; SLiteral LNull] _ eq_refl).
Defined.

Lemma deserializeExpression_rejects_witness :
  deserialize (platform := Reference.platform) statement_a
  = ([ Reference.called "createIdentifier" [VString "a"];
       Reference.called "createExpressionStatement"
         [VNode Reference.built_a] ],
     inr (VNode built_statement_a))
  /\ ts_isExpression (Platform := Reference.platform)
       (VNode built_statement_a) = inr false
  /\ kind (Platform := Reference.platform) built_statement_a = Some 244%N
  /\ Eff.outcome (deserializeExpression (platform := Reference.platform)
                    statement_a)
     = inl (Error "Expected an expression, got: 244").
Proof.
  refine (conj eq_refl (conj eq_refl (conj eq_refl _))).
  now rewrite (deserializeExpression_rejects
                 (platform := Reference.platform)
                 statement_a _ built_statement_a 244 eq_refl eq_refl eq_refl).
Defined.

Lemma deserializeStatement_rejects_primitive_witness :
  deserialize (platform := Reference.platform) (SLiteral (LString "x"))
  = ([], inr (VString "x"))
  /\ ts_isStatement (Platform := Reference.platform) (VString "x") = inr false
  /\ deserializeStatement (platform := Reference.platform)
       (SLiteral (LString "x"))
     = ([], inl (Error "Expected a statement, got: undefined")).
Proof.
  refine (conj eq_refl (conj eq_refl _)).
  exact (deserializeStatement_rejects_primitive
           (platform := Reference.platform)
           (SLiteral (LString "x")) [] (VString "x") eq_refl eq_refl I).
Defined.

Lemma deserializeStatements_returns_inv_witness :
  Eff.outcome (deserializeStatements (platform := Reference.platform)
                 [statement_a; statement_a])
  = inr [VNode built_statement_a; VNode built_statement_a]
  /\ Forall (fun statement =>
               ts_isStatement (Platform := Reference.platform) statement
               = inr true)
            [VNode built_statement_a; VNode built_statement_a].
Proof.
  split; [reflexivity |].
  exact (proj2 (proj2 (deserializeStatements_returns_inv
                         (platform := Reference.platform)
                         [statement_a; statement_a] _ eq_refl))).
Defined.

Lemma deserializeStatements_throws_witness :
  deserializeStatement (platform := Reference.platform) statement_a
  = ([ Reference.called "createIdentifier" [VString "a"];
       Reference.called "createExpressionStatement"
         [VNode Reference.built_a] ],
     inr (VNode built_statement_a))
  /\ deserializeStatement (platform := Reference.platform)
       Reference.identifier_a
     = ([ Reference.called "createIdentifier" [VString "a"] ],
        inl (Error "Expected a statement, got: 80"))
  /\ deserializeStatements (platform := Reference.platform)
       [statement_a; Reference.identifier_a; statement_a]
     = ([ Reference.called "createIdentifier" [VString "a"];
          Reference.called "createExpressionStatement"
            [VNode Reference.built_a];
          Reference.called "createIdentifier" [VString "a"] ],
        inl (Error "Expected a statement, got: 80")).
Proof.
  refine (conj eq_refl (conj eq_refl _)).
  pose proof (deserializeStatements_throws
                (platform := Reference.platform)
                [statement_a] Reference.identifier_a [statement_a]
                [ ([ Reference.called "createIdentifier" [VString "a"];
                     Reference.called "createExpressionStatement"
                       [VNode Reference.built_a] ],
                   VNode built_statement_a) ]
                [ Reference.called "createIdentifier" [VString "a"] ]
                (Error "Expected a statement, got: 80")) as H.
  apply H; [constructor; [reflexivity | constructor] | reflexivity].
Defined.

Lemma print_is_lintText_of_rendering_witness :
  "a" <> ""
  /\ ts_printNode (Platform := Reference.platform)
       (createPrinter no_options) Reference.built_a = inr "a"
  /\ printNode (platform := Reference.platform) Reference.built_a no_options
     = lintText (platform := Reference.platform) "a" no_options.
Proof.
  assert (Hne : "a" <> "") by discriminate.
  refine (conj Hne (conj eq_refl _)).
  exact (proj1 (print_is_lintText_of_rendering
                  (platform := Reference.platform) no_options "a" Hne)
               Reference.built_a eq_refl).
Defined.

Lemma print_options_ext_witness :
  createLinter no_options = createLinter defaults
  /\ createPrinter no_options = createPrinter defaults
  /\ printFile (platform := Reference.platform) [built_statement_a] no_options
     = printFile (platform := Reference.platform) [built_statement_a] defaults.
Proof.
  refine (conj eq_refl (conj eq_refl _)).
  exact (proj1 (proj2 (proj2 (print_options_ext
                                (platform := Reference.platform)
                                no_options defaults eq_refl eq_refl)))
               [built_statement_a]).
Defined.

Lemma print_returns_clean_rendering_witness :
  eslint_lintText (Platform := Reference.platform)
    (createLinter no_options) ("a;" ++ LF)
  = inr clean
  /\ ts_printFile (Platform := Reference.platform)
       (createPrinter no_options) [built_statement_a]
     = inr ("a;" ++ LF)%string
  /\ Eff.outcome (printFile (platform := Reference.platform)
                    [built_statement_a] no_options)
     = inr ("a;" ++ LF)%string.
Proof.
  refine (conj eq_refl (conj eq_refl _)).
  exact (proj1 (proj2 (print_returns_clean_rendering
                         (platform := Reference.platform)
                         no_options ("a;" ++ LF) clean eq_refl
                         (conj eq_refl eq_refl)))
               [built_statement_a] eq_refl).
Defined.

Lemma main_generates_from_stdin_witness :
  In (Generate [JNull])
     (main (host := ReferenceCli.host (ReferenceCli.to_file "a.ts") "null"))
  /\ exists input parsed,
      stdin_isTTY
        (Host := ReferenceCli.host (ReferenceCli.to_file "a.ts") "null")
      = false
      /\ stdin_data
           (Host := ReferenceCli.host (ReferenceCli.to_file "a.ts") "null")
         = inr input
      /\ is_empty (ReferenceCli.trim_both input) = false
      /\ ReferenceCli.parse input = Some parsed
      /\ [JNull] = match parsed with
                   | JArray elements => elements
                   | _ => [parsed]
                   end.
Proof.
  assert (Hin : In (Generate [JNull])
                  (main (host := ReferenceCli.host
                                   (ReferenceCli.to_file "a.ts") "null")))
    by (right; left; reflexivity).
  exact (conj Hin (main_generates_from_stdin
                     (host := ReferenceCli.host
                                (ReferenceCli.to_file "a.ts") "null")
                     [JNull] Hin)).
Defined.

Lemma main_writes_generated_code_witness :
  In (WriteFile "/work/out/a.ts" "")
     (main (host := ReferenceCli.host (ReferenceCli.to_file "out/a.ts") "[]"))
  /\ exists options output input parsed,
      inr (ReferenceCli.to_file "out/a.ts") = inr (A := Thrown) options
      /\ cli_output options = Some output
      /\ "/work/out/a.ts" = ("/work/" ++ output)%string
      /\ inr (A := Thrown) "[]" = inr input
      /\ ReferenceCli.parse input = Some parsed
      /\ ReferenceCli.generate match parsed with
                               | JArray elements => elements
                               | _ => [parsed]
                               end
         = inr "".
Proof.
  assert (Hin : In (WriteFile "/work/out/a.ts" "")
                  (main (host := ReferenceCli.host
                                   (ReferenceCli.to_file "out/a.ts") "[]")))
    by (do 3 right; left; reflexivity).
  exact (conj Hin (main_writes_generated_code
                     (host := ReferenceCli.host
                                (ReferenceCli.to_file "out/a.ts") "[]")
                     "/work/out/a.ts" "" Hin)).
Defined.

Lemma main_makes_directory_witness :
  In (Mkdir "/work/out")
     (main (host := ReferenceCli.host (ReferenceCli.to_file "out/a.ts") "[]"))
  /\ "/work/out" <> "" /\ "/work/out" <> ".".
Proof.
  assert (Hin : In (Mkdir "/work/out")
                  (main (host := ReferenceCli.host
                                   (ReferenceCli.to_file "out/a.ts") "[]")))
    by (do 2 right; left; reflexivity).
  destruct (main_makes_directory
              (host := ReferenceCli.host (ReferenceCli.to_file "out/a.ts") "[]")
              "/work/out" Hin) as (H1 & H2 & _).
  exact (conj Hin (conj H1 H2)).
Defined.

(** Runs of the reference host. *)
Example main_runs :
  main (host := ReferenceCli.host (ReferenceCli.to_file "out/a.ts") "[null]")
  = [ ReadStdin; Generate [JNull];
      ErrorLog "Error: Unknown node type: undefined"; Exit 1 ]
  /\ main (host := ReferenceCli.host (ReferenceCli.to_file "out/a.ts") "{")
     = [ ReadStdin; ErrorLog "Error: Invalid JSON input."; Exit 1 ]
  /\ main (host := ReferenceCli.host (ReferenceCli.to_file "out/a.ts")
                     (" " ++ LF))
     = [ ReadStdin; ErrorLog "Error: No input received from stdin."; Exit 1 ]
  /\ main (host := ReferenceCli.host
                     {| cli_output := None; cli_help := Some true;
                        cli_version := Some true |} "[]")
     = [ Log "1.0.0"; Exit 0 ].
Proof. repeat split. Qed.

(** On a terminal nothing is read: [readStdin] throws first. *)
Example main_on_terminal :
  main (host := ReferenceCli.terminal (ReferenceCli.to_file "a.ts"))
  = [ ErrorLog ("Error: No input provided. Pipe JSON data via stdin." ++ LF
                ++ "Example: echo '[...]' | tsparser -o output.ts");
      Exit 1 ].
Proof. reflexivity. Qed.

(** An object of an unknown type inside an array, and objects that have
    a known type and nothing else. *)
Example deserialize_bare_nodes :
  deserialize (platform := Reference.platform)
    (SFactory "__array__" [Reference.identifier_a; SBare "oops"])
  = ([ Reference.called "createIdentifier" [VString "a"] ],
     inl (Error "Unknown node type: oops"))
  /\ deserialize (platform := Reference.platform) (SBare "literal")
     = ([], inr VUndefined)
  /\ deserialize (platform := Reference.platform) (SBare "factory")
     = ([], inl (Error "Unknown factory method: undefined")).
Proof. repeat split. Qed.

End FurtherWitnesses.
